(** * CategoryObject: a shallow embedding of
      [src/sage/structure/category_object.pyx]

    The file models the Cython class [CategoryObject] together with the
    module-level functions [guess_category], [check_default_category],
    [normalize_names] and [certify_names], and proves properties of its
    naming, category-refinement, pickling and attribute-lookup code.

    - Python values that travel through the untyped slots of the class, through
      the pickled state dictionary and through the [names] arguments are
      elements of [pyval].  Strings are byte strings, with the character
      classes of ASCII.
    - Python exceptions are values of [exception]; a function that may raise
      returns a [result].
    - Methods of the class run in the monad [M]: they read and write the
      object ([self]) and may call the external attribute resolver, whose own
      state is the [world].  A raised exception keeps the mutations made
      before it, as in Python.
    - What the file imports from elsewhere ([Category.join], the categories,
      [getattr_from_other_class], [sage.misc.defaults.variable_names], the
      builtins [repr] and [str]) is a parameter of the development.
      Deprecation warnings are not modelled. *)

From Stdlib Require Import ZArith Ascii String List Bool Lia.
From stdpp Require Import base option list gmap strings.

Set Warnings "-register-all".
Local Open Scope string_scope.
Local Open Scope Z_scope.

(** ** Python strings (ASCII) *)

Module PyStr.

Definition in_range (lo hi : N) (c : ascii) : bool :=
  let n := N_of_ascii c in ((lo <=? n) && (n <=? hi))%N.

(** [c.isalpha()], [c.isdigit()], [c.isalnum()] on one character. *)
Definition isalpha_c (c : ascii) : bool := in_range 65 90 c || in_range 97 122 c.
Definition isdigit_c (c : ascii) : bool := in_range 48 57 c.
Definition isalnum_c (c : ascii) : bool := isalpha_c c || isdigit_c c.

(** The characters removed by [str.strip()]: space, \t, \n, \v, \f, \r. *)
Definition isspace_c (c : ascii) : bool :=
  let n := N_of_ascii c in ((n =? 32) || ((9 <=? n) && (n <=? 13)))%N.

Fixpoint all_c (p : ascii → bool) (s : string) : bool :=
  match s with
  | EmptyString => true
  | String c s' => p c && all_c p s'
  end.

Definition nonempty (s : string) : bool :=
  match s with EmptyString => false | String _ _ => true end.

(** [s.isalnum()] and [s.isalpha()]: at least one character, all in the class. *)
Definition isalnum (s : string) : bool := nonempty s && all_c isalnum_c s.
Definition isalpha (s : string) : bool := nonempty s && all_c isalpha_c s.

(** [s.replace(c, "")] for a one-character pattern [c]. *)
Fixpoint remove_char (c : ascii) (s : string) : string :=
  match s with
  | EmptyString => EmptyString
  | String a s' =>
      if Ascii.eqb a c then remove_char c s' else String a (remove_char c s')
  end.

(** [c in s]. *)
Fixpoint contains (c : ascii) (s : string) : bool :=
  match s with
  | EmptyString => false
  | String a s' => Ascii.eqb a c || contains c s'
  end.

(** [s.split(c)]: always at least one piece. *)
Fixpoint split (c : ascii) (s : string) : list string :=
  match s with
  | EmptyString => [EmptyString]
  | String a s' =>
      if Ascii.eqb a c then EmptyString :: split c s'
      else match split c s' with
           | piece :: pieces => String a piece :: pieces
           | [] => [String a EmptyString]
           end
  end.

Fixpoint lstrip (s : string) : string :=
  match s with
  | EmptyString => EmptyString
  | String a s' => if isspace_c a then lstrip s' else s
  end.

Definition strip (s : string) : string :=
  String.rev (lstrip (String.rev (lstrip s))).

(** [s[0]], for a non-empty [s]; the empty string stands for "no character". *)
Definition first (s : string) : string :=
  match s with
  | EmptyString => EmptyString
  | String a _ => String a EmptyString
  end.

(** Iterating over a string yields its one-character substrings. *)
Fixpoint chars (s : string) : list string :=
  match s with
  | EmptyString => []
  | String a s' => String a EmptyString :: chars s'
  end.

End PyStr.

(** A well-formed variable name: it starts with a letter and every other
    character is a letter, a digit or an underscore. *)
Definition name_char (a : ascii) : bool := PyStr.isalnum_c a || Ascii.eqb a "_".

Definition name_ok (n : string) : Prop :=
  ∃ c rest, n = String c rest ∧ PyStr.isalpha_c c = true ∧ PyStr.all_c name_char rest = true.

(** ** Exceptions and results *)

Inductive exception : Type :=
| TypeError (msg : string)
| ValueError (msg : string)
| IndexError (msg : string)
| AttributeError (msg : string)
| KeyError (key : string)
| OverflowError (msg : string)
| NotImplementedError (msg : string)
| OtherError (msg : string).

Inductive result (A : Type) : Type :=
| Ok (a : A)
| Raise (e : exception).
Arguments Ok {A} a.
Arguments Raise {A} e.

Definition rbind {A B} (r : result A) (k : A → result B) : result B :=
  match r with
  | Ok a => k a
  | Raise e => Raise e
  end.

Notation "'let?' x := r 'in' k" := (rbind r (fun x => k))
  (at level 10, x pattern, r at level 100, k at level 200).

(** The spec's error taxonomy, in terms of the exceptions the code raises:
    a [ValidationError] is a [ValueError] or an [IndexError] (wrong count),
    a [StateError] is the [ValueError] of an unset field. *)
Definition is_ValueError (e : exception) : bool :=
  match e with ValueError _ => true | _ => false end.
Definition is_ValidationError (e : exception) : bool :=
  match e with ValueError _ | IndexError _ => true | _ => false end.

Module category_object.

Section CategoryObject.

(** Categories are an external collaborator: an opaque type with Python
    equality and the [Category.join] operation. *)
Context {Cat : Type} `{EqDecision Cat}.
Variable join : list Cat → Cat.

(** ** Python values *)

Inductive pyval : Type :=
| PNone
| PInt (z : Z)
| PStr (s : string)
| PTuple (l : list pyval)
| PList (l : list pyval)
| PCat (c : Cat)
| PObj (r : positive).

(** Python's [==] on these values: structural on numbers, strings, tuples
    and lists (a tuple never equals a list), identity on other objects. *)
Fixpoint pyval_eqb (a b : pyval) {struct a} : bool :=
  let fix all2 (l1 l2 : list pyval) {struct l1} : bool :=
    match l1, l2 with
    | [], [] => true
    | x :: l1', y :: l2' => pyval_eqb x y && all2 l1' l2'
    | _, _ => false
    end in
  match a, b with
  | PNone, PNone => true
  | PInt x, PInt y => Z.eqb x y
  | PStr x, PStr y => String.eqb x y
  | PTuple l1, PTuple l2 => all2 l1 l2
  | PList l1, PList l2 => all2 l1 l2
  | PCat c, PCat d => bool_decide (c = d)
  | PObj r, PObj q => Pos.eqb r q
  | _, _ => false
  end.

Definition is_None (v : pyval) : bool :=
  match v with PNone => true | _ => false end.

(** The elements of a sequence, in iteration order; a string iterates over
    its characters. *)
Definition py_iter (v : pyval) : result (list pyval) :=
  match v with
  | PTuple l | PList l => Ok l
  | PStr s => Ok (PStr <$> PyStr.chars s)
  | _ => Raise (TypeError "object is not iterable")
  end.

(** [len(v)] for the sequences met in this module. *)
Definition py_len (v : pyval) : Z :=
  match v with
  | PTuple l | PList l => Z.of_nat (length l)
  | PStr s => Z.of_nat (String.length s)
  | _ => 0
  end.

(** Builtins whose output is external to this module: [repr(v)],
    [str(type(v))] and [str(v)] for a value that is not a string. *)
Variable py_repr : pyval → string.
Variable py_type : pyval → string.
Variable py_display : pyval → string.

Definition py_str (v : pyval) : string :=
  match v with
  | PStr s => s
  | _ => py_display v
  end.

(** ** [certify_names] *)

(** The body of [for N in names] with the set [s] of names seen so far. *)
Fixpoint certify_loop (s : gset string) (names : list pyval) : result bool :=
  match names with
  | [] => Ok true
  | N :: names' =>
      match N with
      | PStr n =>
          if negb (PyStr.nonempty n) then
            Raise (ValueError "variable name must be nonempty")
          else if negb (PyStr.isalnum (PyStr.remove_char "_" n)) then
            Raise (ValueError ("variable name " +:+ py_repr N +:+ " is not alphanumeric"))
          else if negb (PyStr.isalpha (PyStr.first n)) then
            Raise (ValueError ("variable name " +:+ py_repr N +:+ " does not start with a letter"))
          else if bool_decide (n ∈ s) then
            Raise (ValueError ("variable name " +:+ py_repr N +:+ " appears more than once"))
          else certify_loop ({[ n ]} ∪ s) names'
      | _ =>
          Raise (TypeError ("variable name " +:+ py_repr N +:+ " must be a string, not "
                            +:+ py_type N))
      end
  end.

Definition certify_names (names : pyval) : result bool :=
  let? l := py_iter names in
  certify_loop ∅ l.

(** The rule a candidate breaks, in the order the specification lists
    them, given the names that come before it in the same call. *)
Definition rule_broken (earlier : list string) (N : pyval) : option exception :=
  match N with
  | PStr n =>
      if negb (PyStr.nonempty n) then
        Some (ValueError "variable name must be nonempty")
      else if negb (PyStr.isalnum (PyStr.remove_char "_" n)) then
        Some (ValueError ("variable name " +:+ py_repr N +:+ " is not alphanumeric"))
      else if negb (PyStr.isalpha (PyStr.first n)) then
        Some (ValueError ("variable name " +:+ py_repr N +:+ " does not start with a letter"))
      else if bool_decide (n ∈ earlier) then
        Some (ValueError ("variable name " +:+ py_repr N +:+ " appears more than once"))
      else None
  | _ =>
      Some (TypeError ("variable name " +:+ py_repr N +:+ " must be a string, not "
                       +:+ py_type N))
  end.

(** ** [normalize_names] *)

(** [sage.misc.defaults.variable_names(n, prefix)] lives outside this file;
    it returns a sequence of strings. *)
Variable defaults_variable_names : Z → string → list string.

(** Conversion of the argument to [Py_ssize_t] (64-bit). *)
Definition as_Py_ssize_t (n : Z) : result Z :=
  if (- 2 ^ 63 <=? n) && (n <? 2 ^ 63) then Ok n
  else Raise (OverflowError "cannot fit 'int' into an index-sized integer").

Definition py_tuple (v : pyval) : pyval :=
  match v with
  | PList l => PTuple l
  | PStr s => PTuple (PStr <$> PyStr.chars s)
  | _ => v
  end.

(** The first half of [normalize_names]: the shape of [names] decides how
    it is read as a sequence of candidate names. *)
Definition names_of_spec (ngens : Z) (names : pyval) : result pyval :=
  match names with
  | PTuple l | PList l =>
      (* Convert names to strings and strip whitespace *)
      Ok (PList ((fun x => PStr (PyStr.strip (py_str x))) <$> l))
  | _ =>
      (* Interpret names as string and convert to tuple of strings *)
      let names := py_str names in
      let? names :=
        if PyStr.contains "," names then
          Ok (PList ((fun x => PStr (PyStr.strip x)) <$> PyStr.split "," names))
        else if (ngens >? 1) && (Z.of_nat (String.length names) =? ngens) then
          (* Split a name like "xyz" into ("x", "y", "z") *)
          match certify_names (PStr names) with
          | Ok _ => Ok (py_tuple (PStr names))
          | Raise (ValueError _) => Ok (PStr names)
          | Raise e => Raise e
          end
        else Ok (PStr names) in
      match names with
      | PStr s =>
          if ngens <? 0 then Ok (PList [PStr s])
          else Ok (PList (PStr <$> defaults_variable_names ngens s))
      | _ => Ok names
      end
  end.

Definition normalize_names (ngens : Z) (names : pyval) : result pyval :=
  let? ngens := as_Py_ssize_t ngens in
  let? names := names_of_spec ngens names in
  let? _ := certify_names names in
  if (ngens >=? 0) && negb (py_len names =? ngens) then
    Raise (IndexError "the number of names must equal the number of generators")
  else Ok (py_tuple names).

(** ** The class [CategoryObject] *)

(** Resolved attributes (bound methods and the like) and the state of the
    code behind the external attribute resolver. *)
Context {Val W : Type}.

(** The C-level slots of an instance ([category_object.pxd]), its identity
    and, for instances of a Python subclass, the instance dictionary. *)
Record CategoryObject : Type := mkCategoryObject {
  ident : positive;
  _category : pyval;
  _base : pyval;
  _names : pyval;
  __cached_methods : gmap string Val;
  _hash_value : Z;
  __dict__ : option (gmap string pyval);
}.

Definition set_category (v : pyval) (o : CategoryObject) : CategoryObject :=
  mkCategoryObject (ident o) v (_base o) (_names o) (__cached_methods o)
                   (_hash_value o) (__dict__ o).
Definition set_base (v : pyval) (o : CategoryObject) : CategoryObject :=
  mkCategoryObject (ident o) (_category o) v (_names o) (__cached_methods o)
                   (_hash_value o) (__dict__ o).
Definition set_names (v : pyval) (o : CategoryObject) : CategoryObject :=
  mkCategoryObject (ident o) (_category o) (_base o) v (__cached_methods o)
                   (_hash_value o) (__dict__ o).
Definition set_cached_methods (c : gmap string Val) (o : CategoryObject) : CategoryObject :=
  mkCategoryObject (ident o) (_category o) (_base o) (_names o) c
                   (_hash_value o) (__dict__ o).
Definition set_hash_value (h : Z) (o : CategoryObject) : CategoryObject :=
  mkCategoryObject (ident o) (_category o) (_base o) (_names o) (__cached_methods o)
                   h (__dict__ o).
Definition set_dict (d : option (gmap string pyval)) (o : CategoryObject) : CategoryObject :=
  mkCategoryObject (ident o) (_category o) (_base o) (_names o) (__cached_methods o)
                   (_hash_value o) d.

(** [v is o] *)
Definition py_is (v : pyval) (o : CategoryObject) : bool :=
  match v with
  | PObj r => Pos.eqb r (ident o)
  | _ => false
  end.

(** *** The method monad *)

Record state : Type := mkState { self : CategoryObject; world : W }.

Definition M (A : Type) : Type := state → result A * state.

Definition ret {A} (a : A) : M A := fun st => (Ok a, st).
Definition raise {A} (e : exception) : M A := fun st => (Raise e, st).
Definition bind {A B} (m : M A) (k : A → M B) : M B :=
  fun st => match m st with
            | (Ok a, st') => k a st'
            | (Raise e, st') => (Raise e, st')
            end.
Definition lift {A} (r : result A) : M A := fun st => (r, st).
Definition get {A} (f : CategoryObject → A) : M A := fun st => (Ok (f (self st)), st).
Definition modify (f : CategoryObject → CategoryObject) : M unit :=
  fun st => (Ok tt, mkState (f (self st)) (world st)).

(** [try: m  except <caught>: handler] *)
Definition try_except {A} (m : M A) (caught : exception → bool) (handler : M A) : M A :=
  fun st => match m st with
            | (Raise e, st') => if caught e then handler st' else (Raise e, st')
            | r => r
            end.

(** [preserves f m]: running [m] leaves the observation [f] of the state
    as it was, whether [m] returns or raises. *)
Definition preserves {X A : Type} (f : state → X) (m : M A) : Prop :=
  ∀ st, f (snd (m st)) = f st.

Notation "'let!' x := m 'in' k" := (bind m (fun x => k))
  (at level 10, x pattern, m at level 100, k at level 200).
Notation "m ;;; k" := (bind m (fun _ => k))
  (at level 100, k at level 200, right associativity).

(** *** External collaborators *)

(** [Category.join(categories)], on a Python list: given by [join] when
    every element is a category; what it does with anything else is not
    known from this file and is taken to be a [TypeError]. *)
Definition as_categories (l : list pyval) : option (list Cat) :=
  mapM (fun v => match v with PCat c => Some c | _ => None end) l.

Definition Category_join (l : list pyval) : result pyval :=
  match as_categories l with
  | Some cs => Ok (PCat (join cs))
  | None => Raise (TypeError "join() expects categories")
  end.

Definition as_strings (l : list pyval) : option (list string) :=
  mapM (fun v => match v with PStr s => Some s | _ => None end) l.

(** [recv.join(args)]: a category answers with [Category.join]; a string
    has the [join] of [str]; no other value of [pyval] has that attribute
    (an object [PObj] stands for one without the category interface). *)
Definition call_join (recv : pyval) (args : list pyval) : result pyval :=
  match recv with
  | PCat _ => Category_join args
  | PStr sep =>
      match as_strings args with
      | Some ss => Ok (PStr (String.concat sep ss))
      | None => Raise (TypeError "sequence item: expected str instance")
      end
  | _ => Raise (AttributeError "object has no attribute 'join'")
  end.

(** The class handed to the cross-class fetch: the builtin [type], or
    [cat.parent_class] (the behavior table of the category). *)
Inductive lookup_class : Type :=
| type_class
| parent_class (c : Cat).

Definition get_parent_class (v : pyval) : result lookup_class :=
  match v with
  | PCat c => Ok (parent_class c)
  | _ => Raise (AttributeError "object has no attribute 'parent_class'")
  end.

(** [sage.cpython.getattr.getattr_from_other_class(self, cls, name)]: the
    cross-class fetch, with whatever state the table it searches carries.
    It reads the object and does not write its slots. *)
Variable getattr_from_other_class :
  CategoryObject → lookup_class → string → W → result Val * W.

(** The categories named in this file and the capability probes of
    [guess_category], which the concrete subclass answers without writing
    the slots of the object. *)
Variables Objects Fields CommutativeRings Rings : Cat.
Variables CommutativeAlgebras Algebras : pyval → result Cat.
Variables is_field is_ring is_commutative : CategoryObject → result bool.

(** [hash(repr(self))] *)
Variable hash_repr : CategoryObject → Z.

(** *** [guess_category] and [check_default_category] *)

Definition guess_category (obj : CategoryObject) : result pyval :=
  let first_try :=
    match is_field obj with
    | Ok true => Some (Ok (PCat Fields))
    | Ok false => None
    | Raise (AttributeError _) | Raise (NotImplementedError _) => None
    | Raise e => Some (Raise e)
    end in
  match first_try with
  | Some r => r
  | None =>
      let second_try : result (option pyval) :=
        let? ring := is_ring obj in
        if ring then
          let? commutative := is_commutative obj in
          if commutative then
            if negb (py_is (_base obj) obj) then
              let? c := CommutativeAlgebras (_base obj) in Ok (Some (PCat c))
            else Ok (Some (PCat CommutativeRings))
          else
            if negb (py_is (_base obj) obj) then
              let? c := Algebras (_base obj) in Ok (Some (PCat c))
            else Ok (Some (PCat Rings))
        else Ok None in
      match second_try with
      | Ok (Some v) => Ok v
      | Ok None | Raise _ => Ok PNone
      end
  end.

Definition check_default_category (default_category category : pyval) : result pyval :=
  if is_None category then Ok default_category
  else call_join default_category [default_category; category].

(** *** Categories *)

Definition __cinit__ (id : positive) (has_dict : bool) : CategoryObject :=
  mkCategoryObject id PNone PNone PNone ∅ (-1) (if has_dict then Some ∅ else None).

Definition _init_category_ (category : pyval) : M unit :=
  let! category :=
    if is_None category then
      (* Deprecated in Trac #24109 *)
      let! me := get id in lift (guess_category me)
    else ret category in
  let! category :=
    match category with
    | PTuple l | PList l => lift (Category_join l)
    | _ => ret category
    end in
  modify (set_category category).

Definition __init__ (category base : pyval) : M unit :=
  (if negb (is_None base) then modify (set_base base) else ret tt) ;;;
  if negb (is_None category) then _init_category_ category else ret tt.

Definition _refine_category_ (category : pyval) : M unit :=
  let! current := get _category in
  if is_None current then _init_category_ category
  else
    let category :=
      match category with
      | PTuple l | PList l => l
      | _ => [category]
      end in
    let! joined := lift (call_join current ([current] ++ category)) in
    modify (set_category joined).

Definition _is_category_initialized : M bool :=
  let! current := get _category in ret (negb (is_None current)).

Definition category : M pyval :=
  let! current := get _category in
  (if is_None current then modify (set_category (PCat Objects)) else ret tt) ;;;
  get _category.

(** *** Names *)

Definition _assign_names (names : pyval) (normalize : bool) (ngens : option Z) : M unit :=
  (* this will eventually all be handled by the printer *)
  if is_None names then ret tt
  else
    let! names :=
      if normalize then
        let ngens := match ngens with None => -1 (* unknown *) | Some n => n end in
        lift (normalize_names ngens names)
      else ret names in
    let! current := get _names in
    if negb (is_None current) && negb (pyval_eqb names current) then
      raise (ValueError "variable names cannot be changed after object creation.")
    else
      let! names :=
        match names with
        | PStr _ => ret (PTuple [names])   (* make it a tuple *)
        | PList l => ret (PTuple l)
        | PTuple _ => ret names
        | _ => raise (TypeError "names must be a tuple of strings")
        end in
      modify (set_names names).

Definition variable_names : M pyval :=
  let! current := get _names in
  if negb (is_None current) then ret current
  else raise (ValueError "variable names have not yet been set using self._assign_names(...)").

(** The value a call of [_assign_names] compares with the names already
    set: the normalized form of its argument, or the argument itself when
    normalization is switched off. *)
Definition names_to_assign (names : pyval) (normalize : bool) (ngens : option Z)
  : result pyval :=
  if normalize then
    normalize_names (match ngens with None => -1 | Some n => n end) names
  else Ok names.

Definition base_ring : M pyval := get _base.
Definition base : M pyval := get _base.

(** *** Pickling *)

(** [d[key]] *)
Definition getitem (d : gmap string pyval) (key : string) : M pyval :=
  match d !! key with
  | Some v => ret v
  | None => raise (KeyError key)
  end.

Definition catch_AttributeError_KeyError (e : exception) : bool :=
  match e with AttributeError _ | KeyError _ => true | _ => false end.

Definition __getstate__ : M (gmap string pyval) :=
  let! own := get __dict__ in
  let d := match own with
           | Some dict => dict   (* so we can add elements *)
           | None => ∅
           end in
  let! c := get _category in
  let d := <["_category" := c]> d in
  let! b := get _base in
  let d := <["_base" := b]> d in
  let! n := get _names in
  let d := <["_names" := n]> d in
  let d := <["_pickle_version" := PInt 1]> d in
  ret d.

Definition __setstate__ (d : gmap string pyval) : M unit :=
  let! version := try_except (getitem d "_pickle_version")
                             (fun e => match e with KeyError _ => true | _ => false end)
                             (ret (PInt 0)) in
  (if pyval_eqb version (PInt 1) then
     let! c := getitem d "_category" in
     (if negb (is_None c) then
        (* We must not erase the category information of self. *)
        let! current := get _category in
        if is_None current then modify (set_category c)
        else
          let! joined := lift (call_join current [current; c]) in
          modify (set_category joined)
      else ret tt) ;;;
     let! b := getitem d "_base" in
     modify (set_base b) ;;;
     let! n := getitem d "_names" in
     modify (set_names n)
   else if pyval_eqb version (PInt 0) then
     try_except
       (let! b := getitem d "_base" in
        modify (set_base b) ;;;
        let! n := getitem d "_names" in
        modify (set_names n))
       (* We throw away d['_latex_names'] and d['_list'] *)
       catch_AttributeError_KeyError
       (ret tt)
   else ret tt) ;;;
  let! own := get __dict__ in
  match own with
  | Some _ => modify (set_dict (Some d))
  | None => ret tt   (* except AttributeError: pass *)
  end.

Definition __hash__ : M Z :=
  let! h := get _hash_value in
  (if h =? -1 then
     let! me := get id in modify (set_hash_value (hash_repr me))
   else ret tt) ;;;
  get _hash_value.

(** *** Getting attributes from the category *)

Definition call_resolver (cls : lookup_class) (name : string) : M Val :=
  fun st =>
    let (r, w) := getattr_from_other_class (self st) cls name (world st) in
    (r, mkState (self st) w).

Definition getattr_from_category (name : string) : M Val :=
  let! cache := get __cached_methods in
  match cache !! name with
  | Some attr => ret attr
  | None =>
      let! current := get _category in
      let! cls :=
        if is_None current then
          (* Usually, this will just raise AttributeError in
             getattr_from_other_class(). *)
          ret type_class
        else lift (get_parent_class current) in
      let! attr := call_resolver cls name in
      let! cache := get __cached_methods in
      modify (set_cached_methods (<[name := attr]> cache)) ;;;
      ret attr
  end.

Definition __getattr__ (name : string) : M Val := getattr_from_category name.

(** *** More of the naming and generator interface *)

(** [v[i]] for a non-negative index [i]. *)
Definition py_getitem (v : pyval) (i : nat) : result pyval :=
  match v with
  | PTuple l =>
      match l !! i with
      | Some x => Ok x
      | None => Raise (IndexError "tuple index out of range")
      end
  | PList l =>
      match l !! i with
      | Some x => Ok x
      | None => Raise (IndexError "list index out of range")
      end
  | PStr s =>
      match PyStr.chars s !! i with
      | Some c => Ok (PStr c)
      | None => Raise (IndexError "string index out of range")
      end
  | _ => Raise (TypeError "object is not subscriptable")
  end.

Definition variable_name : M pyval :=
  let! names := variable_names in
  lift (py_getitem names 0).

(** [self._defining_names()]: a cached method that by default returns
    [self.gens()], which the concrete subclass supplies.  It is code from
    outside this file and may do anything to the state. *)
Variable _defining_names : M pyval.

Definition gens_dict : M (gmap string pyval) :=
  let! names := _defining_names in
  let! l := lift (py_iter names) in
  ret (foldl (fun v x => <[py_str x := x]> v) ∅ l).

(** *** Vocabulary of the properties *)

(** The class searched on a cache miss. *)
Definition searches (o : CategoryObject) (cls : lookup_class) : Prop :=
  (_category o = PNone ∧ cls = type_class)
  ∨ (∃ c, _category o = PCat c ∧ cls = parent_class c).

(** Everything but the category slot: what a refinement must not change. *)
Definition but_category (st : state) : CategoryObject * W :=
  (set_category PNone (self st), world st).

(** Everything but the three pickled slots and the instance dictionary. *)
Definition but_pickled (st : state) : CategoryObject * W :=
  (set_dict None (set_names PNone (set_base PNone (set_category PNone (self st)))),
   world st).

(** Refining with the categories of a list, one call after the other. *)
Fixpoint refine_each (categories : list pyval) : M unit :=
  match categories with
  | [] => ret tt
  | c :: categories' => _refine_category_ c ;;; refine_each categories'
  end.

End CategoryObject.

End category_object.

Import category_object.

(** ** A concrete instance

    A category is identified with the set of method names its behavior table
    defines, [join] is union, a resolved attribute records its name and the
    category it was bound from, and the world counts the calls made to the
    cross-class fetch. *)

Module Demo.

Definition join (l : list (gset string)) : gset string := ⋃ l.

Definition repr (v : @pyval (gset string)) : string :=
  match v with
  | PStr s => "'" +:+ s +:+ "'"
  | PNone => "None"
  | _ => "<object>"
  end.
Definition type_name (v : @pyval (gset string)) : string :=
  match v with
  | PNone => "<type 'NoneType'>"
  | PInt _ => "<type 'int'>"
  | _ => "<type 'object'>"
  end.

Definition digit (i : nat) : string := String (ascii_of_nat (48 + i)) "".

(** Agrees with the documented [nn(1, 'a')] and [nn(2, 'x0')] for up to ten
    generators. *)
Definition variable_names (n : Z) (prefix : string) : list string :=
  if n =? 1 then [prefix]
  else (fun i => prefix +:+ digit i) <$> seq 0 (Z.to_nat n).

Definition Val : Type := string * gset string.

Definition resolver (o : @CategoryObject (gset string) Val) (cls : lookup_class)
    (name : string) (calls : nat) : result Val * nat :=
  match cls with
  | parent_class c =>
      if bool_decide (name ∈ c) then (Ok (name, c), S calls)
      else (Raise (AttributeError ("no attribute " +:+ name)), S calls)
  | type_class => (Raise (AttributeError ("no attribute " +:+ name)), S calls)
  end.

Definition no_probe (o : @CategoryObject (gset string) Val) : result bool :=
  Raise (AttributeError "no such method").
Definition no_algebras (b : @pyval (gset string)) : result (gset string) :=
  Raise (TypeError "base must be a ring").

Definition Sets : gset string := {[ "an_element" ]}.
Definition Magmas : gset string := {[ "an_element"; "product" ]}.
Definition Semigroups : gset string := {[ "an_element"; "product"; "prod" ]}.

(** An object of category [Sets] that has already looked up [an_element]
    and computed its hash. *)
Definition warm : @CategoryObject (gset string) Val :=
  mkCategoryObject 1%positive (PCat Sets) (PObj 2%positive)
                   (PTuple [PStr "x"; PStr "y"])
                   {[ "an_element" := ("an_element", Sets) ]} 77 None.

(** The same object before any lookup. *)
Definition cold : @CategoryObject (gset string) Val :=
  mkCategoryObject 1%positive (PCat Sets) (PObj 2%positive) PNone ∅ (-1) None.

(** A state record tagged with a version this code does not know. *)
Definition future_record : gmap string (@pyval (gset string)) :=
  {[ "_pickle_version" := PInt 2;
     "_category" := PCat Semigroups;
     "_base" := PNone;
     "_names" := PTuple [PStr "t"] ]}.

(** The state record of [warm]. *)
Definition warm_record : gmap string (@pyval (gset string)) :=
  {[ "_pickle_version" := PInt 1;
     "_category" := PCat Sets;
     "_base" := PObj 2%positive;
     "_names" := PTuple [PStr "x"; PStr "y"] ]}.

Definition refine (A : @pyval (gset string)) : @M (gset string) Val nat unit :=
  _refine_category_ join ∅ ∅ ∅ no_algebras no_algebras no_probe no_probe no_probe A.

Definition lookup (name : string) : @M (gset string) Val nat Val :=
  getattr_from_category resolver name.

Definition restore (d : gmap string (@pyval (gset string))) : @M (gset string) Val nat unit :=
  __setstate__ join d.

Definition capture : @M (gset string) Val nat (gmap string (@pyval (gset string))) :=
  __getstate__.

Definition assign (names : @pyval (gset string)) (normalize : bool) (ngens : option Z)
  : @M (gset string) Val nat unit :=
  _assign_names repr type_name repr variable_names names normalize ngens.

(** The generators of the demo object print as their names. *)
Definition defining_names : @M (gset string) Val nat (@pyval (gset string)) :=
  fun st => (Ok (PTuple [PStr "x"; PStr "y"]), st).

Definition hash_of (o : @CategoryObject (gset string) Val) : Z :=
  Z.of_nat (size (__cached_methods o)) + 40.

End Demo.

(** * Properties *)

Local Open Scope list_scope.

(** ** Strings *)

Lemma isalpha_c_not_underscore c : PyStr.isalpha_c c = true → Ascii.eqb c "_" = false.
Proof.
  intros Hc. destruct (Ascii.eqb_spec c "_") as [-> | _]; [| reflexivity].
  vm_compute in Hc. discriminate.
Qed.

Lemma all_c_remove_underscore s :
  PyStr.all_c PyStr.isalnum_c (PyStr.remove_char "_" s) = PyStr.all_c name_char s.
Proof.
  induction s as [| a s IH]; [reflexivity |].
  cbn [PyStr.remove_char PyStr.all_c]. unfold name_char at 1.
  destruct (Ascii.eqb_spec a "_") as [-> | Hne].
  - rewrite IH. reflexivity.
  - cbn [PyStr.all_c]. rewrite IH, orb_false_r. reflexivity.
Qed.

(** The three per-name tests of the loop amount to [name_ok]. *)
Lemma name_tests_ok n :
  PyStr.nonempty n = true
  ∧ PyStr.isalnum (PyStr.remove_char "_" n) = true
  ∧ PyStr.isalpha (PyStr.first n) = true
  ↔ name_ok n.
Proof.
  split.
  - intros (Hne & Hal & Hfirst). destruct n as [| c rest]; [discriminate |].
    exists c, rest. split; [reflexivity |].
    cbn in Hfirst. rewrite andb_true_r in Hfirst.
    split; [exact Hfirst |].
    unfold PyStr.isalnum in Hal. apply andb_true_iff in Hal as [_ Hal].
    rewrite all_c_remove_underscore in Hal. cbn in Hal.
    apply andb_true_iff in Hal as [_ Hal]. exact Hal.
  - intros (c & rest & -> & Hc & Hrest). split; [reflexivity |]. split.
    + unfold PyStr.isalnum. cbn [PyStr.remove_char].
      rewrite (isalpha_c_not_underscore c Hc). cbn [PyStr.nonempty PyStr.all_c].
      rewrite all_c_remove_underscore, Hrest.
      unfold PyStr.isalnum_c. rewrite Hc. reflexivity.
    + cbn. rewrite Hc. reflexivity.
Qed.

Section NameProperties.

Context {Cat : Type}.
Variables py_repr py_type py_display : @pyval Cat → string.
Variable defaults_variable_names : Z → string → list string.

Local Abbreviation rule_broken := (rule_broken py_repr py_type).
Local Abbreviation certify_loop := (certify_loop py_repr py_type).
Local Abbreviation certify_names := (certify_names py_repr py_type).
Local Abbreviation names_of_spec :=
  (names_of_spec py_repr py_type py_display defaults_variable_names).
Local Abbreviation normalize_names :=
  (normalize_names py_repr py_type py_display defaults_variable_names).

Lemma rule_broken_None (earlier : list string) (N : pyval) :
  rule_broken earlier N = None ↔ ∃ n, N = PStr n ∧ name_ok n ∧ n ∉ earlier.
Proof.
  split.
  - destruct N as [| | n | | | |]; cbn; try discriminate.
    destruct (PyStr.nonempty n) eqn:E1; cbn; [| discriminate].
    destruct (PyStr.isalnum (PyStr.remove_char "_" n)) eqn:E2; cbn; [| discriminate].
    destruct (PyStr.isalpha (PyStr.first n)) eqn:E3; cbn; [| discriminate].
    case_bool_decide as E4; [discriminate |]. intros _.
    exists n. split; [reflexivity |]. split; [| exact E4].
    apply name_tests_ok. auto.
  - intros (n & -> & Hok & Hnew). apply name_tests_ok in Hok as (E1 & E2 & E3).
    cbn. rewrite E1, E2, E3. cbn. rewrite bool_decide_eq_false_2; done.
Qed.

(** One turn of the loop, with the set [s] holding exactly the names [seen]. *)
Lemma certify_loop_step (s : gset string) (seen : list string) N l :
  (∀ n, n ∈ s ↔ n ∈ seen) →
  certify_loop s (N :: l) =
    match rule_broken seen N, N with
    | Some e, _ => Raise e
    | None, PStr n => certify_loop ({[ n ]} ∪ s) l
    | None, _ => Ok true
    end.
Proof.
  intros Hs. destruct N as [| | n | | | |]; cbn; try reflexivity.
  destruct (negb (PyStr.nonempty n)); [reflexivity |].
  destruct (negb (PyStr.isalnum (PyStr.remove_char "_" n))); [reflexivity |].
  destruct (negb (PyStr.isalpha (PyStr.first n))); [reflexivity |].
  rewrite (bool_decide_ext (n ∈ s) (n ∈ seen) (Hs n)).
  destruct (bool_decide (n ∈ seen)); reflexivity.
Qed.

Lemma seen_extend (s : gset string) (seen : list string) (n : string) :
  (∀ m, m ∈ s ↔ m ∈ seen) → ∀ m, m ∈ ({[ n ]} ∪ s : gset string) ↔ m ∈ (seen ++ [n])%list.
Proof.
  intros Hs m.
  rewrite elem_of_union, elem_of_singleton, elem_of_app, list_elem_of_singleton, Hs.
  tauto.
Qed.

(** A prefix of names that all pass is skipped by the loop. *)
Lemma certify_loop_app (s : gset string) (seen ns1 : list string) (rest : list pyval) :
  (∀ n, n ∈ s ↔ n ∈ seen) →
  certify_loop s (PStr <$> ns1) = Ok true →
  ∃ s', (∀ n, n ∈ s' ↔ n ∈ seen ++ ns1)
        ∧ certify_loop s ((PStr <$> ns1) ++ rest) = certify_loop s' rest.
Proof.
  revert s seen. induction ns1 as [| n ns1 IH]; intros s seen Hs Hok.
  - exists s. rewrite app_nil_r. split; [exact Hs | reflexivity].
  - cbn [fmap list_fmap app] in *.
    rewrite (certify_loop_step s seen _ _ Hs) in Hok.
    rewrite (certify_loop_step s seen _ _ Hs).
    destruct (rule_broken seen (PStr n)); [discriminate |].
    destruct (IH _ _ (seen_extend s seen n Hs) Hok) as (s' & Hs' & Heq).
    exists s'. split; [| exact Heq].
    intros m. rewrite Hs', <- app_assoc. reflexivity.
Qed.

(** The loop either accepts the whole list, or stops at the first name
    that breaks a rule and raises the error of that rule. *)
Lemma certify_loop_outcome (s : gset string) (seen : list string) (l : list pyval) :
  (∀ n, n ∈ s ↔ n ∈ seen) →
  (∃ ns, l = PStr <$> ns ∧ certify_loop s l = Ok true
         ∧ Forall name_ok ns ∧ NoDup ns ∧ ∀ n, n ∈ ns → n ∉ seen)
  ∨ (∃ ns1 N l2 e, l = (PStr <$> ns1) ++ N :: l2
         ∧ certify_loop s (PStr <$> ns1) = Ok true
         ∧ rule_broken (seen ++ ns1) N = Some e
         ∧ certify_loop s l = Raise e).
Proof.
  revert s seen. induction l as [| N l IH]; intros s seen Hs.
  - left. exists []. repeat split; try constructor. intros n Hn. inversion Hn.
  - destruct (rule_broken seen N) as [e |] eqn:Hrule.
    + right. exists [], N, l, e. rewrite app_nil_r.
      repeat split; [exact Hrule |].
      rewrite (certify_loop_step s seen _ _ Hs), Hrule. reflexivity.
    + destruct (proj1 (rule_broken_None seen N) Hrule) as (n & -> & Hok & Hnew).
      pose proof (certify_loop_step s seen (PStr n) l Hs) as Hstep.
      rewrite Hrule in Hstep.
      destruct (IH _ _ (seen_extend s seen n Hs))
        as [(ns & -> & Hrun & Hall & Hnd & Hfresh)
           | (ns1 & N' & l2 & e & -> & Hpre & Hbad & Hrun)].
      * left. exists (n :: ns). split; [reflexivity |].
        split; [rewrite Hstep; exact Hrun |].
        split; [constructor; assumption |].
        split.
        -- constructor; [| exact Hnd]. intros Hin.
           apply (Hfresh n Hin). apply elem_of_app. right. constructor.
        -- intros m Hm. apply elem_of_cons in Hm as [-> | Hm]; [exact Hnew |].
           intros Hseen. apply (Hfresh m Hm). apply elem_of_app. left. exact Hseen.
      * right. exists (n :: ns1), N', l2, e. split; [reflexivity |].
        split.
        -- cbn [fmap list_fmap].
           rewrite (certify_loop_step s seen (PStr n) _ Hs), Hrule. exact Hpre.
        -- split; [rewrite <- app_assoc in Hbad; exact Hbad |].
           cbn [fmap list_fmap app]. rewrite Hstep. exact Hrun.
Qed.

Lemma empty_seen : ∀ n : string, n ∈ (∅ : gset string) ↔ n ∈ @nil string.
Proof.
  intros n. split; intros Hn; [apply not_elem_of_empty in Hn | inversion Hn]; contradiction.
Qed.

Lemma certify_loop_accepts (s : gset string) (seen ns : list string) :
  (∀ n, n ∈ s ↔ n ∈ seen) →
  Forall name_ok ns → NoDup ns → (∀ n, n ∈ ns → n ∉ seen) →
  certify_loop s (PStr <$> ns) = Ok true.
Proof.
  revert s seen. induction ns as [| n ns IH]; intros s seen Hs Hall Hnd Hfresh.
  - reflexivity.
  - cbn [fmap list_fmap]. rewrite (certify_loop_step s seen _ _ Hs).
    apply Forall_cons in Hall as [Hn Hall]. apply NoDup_cons in Hnd as [Hnotin Hnd].
    rewrite (proj2 (rule_broken_None seen (PStr n))).
    + apply (IH _ _ (seen_extend s seen n Hs) Hall Hnd).
      intros m Hm Hseen. apply elem_of_app in Hseen as [Hseen | Hseen].
      * apply (Hfresh m); [right; exact Hm | exact Hseen].
      * apply list_elem_of_singleton in Hseen as ->. contradiction.
    + exists n. split; [reflexivity |]. split; [exact Hn |].
      apply Hfresh. left.
Qed.

(** A returned value is [True], and the names are then well formed and
    pairwise distinct. *)
Lemma certify_loop_Ok (l : list pyval) (b : bool) :
  certify_loop ∅ l = Ok b →
  b = true ∧ ∃ ns, l = PStr <$> ns ∧ Forall name_ok ns ∧ NoDup ns.
Proof.
  intros Hrun.
  destruct (certify_loop_outcome ∅ [] l empty_seen)
    as [(ns & -> & Hok & Hall & Hnd & _) | (ns1 & N & l2 & e & _ & _ & _ & Hraise)].
  - rewrite Hok in Hrun. injection Hrun as <-. eauto.
  - rewrite Hraise in Hrun. discriminate.
Qed.

(** On strings the loop never raises anything but a [ValueError]. *)
Lemma certify_loop_strings_raise (s : gset string) (ns : list string) (e : exception) :
  certify_loop s (PStr <$> ns) = Raise e → is_ValueError e = true.
Proof.
  revert s. induction ns as [| n ns IH]; intros s; cbn; [discriminate |].
  repeat case_match; try (intros [= <-]; reflexivity).
  apply IH.
Qed.

(** The shape analysis never fails, and yields a list or a tuple of
    strings. *)
Lemma names_of_spec_total (n : Z) (spec : pyval) :
  ∃ (ns : list string) (c : pyval),
    names_of_spec n spec = Ok c
    ∧ (c = PList (PStr <$> ns) ∨ c = PTuple (PStr <$> ns)).
Proof.
  assert (Hstr : ∀ s : string,
    ∃ (ns : list string) (c : @pyval Cat),
      (if n <? 0 then Ok (PList [PStr s])
       else Ok (PList (PStr <$> defaults_variable_names n s))) = Ok c
      ∧ (c = PList (PStr <$> ns) ∨ c = PTuple (PStr <$> ns))).
  { intros s. destruct (n <? 0); [exists [s] | eexists]; eexists; split; eauto. }
  destruct spec as [| z | s | l | l | c | r]; cbn [names_of_spec];
    try (exists ((fun x => PyStr.strip (py_str py_display x)) <$> l); eexists;
         split; [reflexivity |]; left; rewrite <- list_fmap_compose; reflexivity).
  all: set (s0 := py_str py_display _); clearbody s0.
  all: destruct (PyStr.contains "," s0);
    [ exists (PyStr.strip <$> PyStr.split "," s0); eexists; split; [reflexivity |];
      left; rewrite <- list_fmap_compose; reflexivity |].
  all: destruct ((n >? 1) && (Z.of_nat (String.length s0) =? n)); [| apply Hstr].
  all: destruct (certify_names (PStr s0)) as [b | e] eqn:Hc;
    [ exists (PyStr.chars s0); eexists; split; [reflexivity |]; right; reflexivity |].
  all: apply certify_loop_strings_raise in Hc; destruct e; try discriminate; apply Hstr.
Qed.

(** C6. [certify_names] checks the candidates in order and, for each one,
    the rules in the order non-string, empty, not alphanumeric up to
    underscores, not starting with a letter, duplicate of an earlier name.
    It returns [True] exactly when every name is well formed and no name
    occurs twice, it never returns [False], and otherwise it raises the
    error of the first rule broken by the first offending name.  The four
    documented rejections follow. *)
Theorem certify_names_first_violation :
  (∀ l : list pyval,
      certify_names (PList l) = Ok true
      ↔ ∃ ns, l = PStr <$> ns ∧ Forall name_ok ns ∧ NoDup ns)
  ∧ (∀ (ns1 : list string) (N : pyval) (l2 : list pyval) (e : exception),
      certify_names (PList (PStr <$> ns1)) = Ok true →
      rule_broken ns1 N = Some e →
      certify_names (PList ((PStr <$> ns1) ++ N :: l2)) = Raise e)
  ∧ (∀ (l : list pyval) (e : exception),
      certify_names (PList l) = Raise e →
      ∃ ns1 N l2, l = (PStr <$> ns1) ++ N :: l2
                  ∧ certify_names (PList (PStr <$> ns1)) = Ok true
                  ∧ rule_broken ns1 N = Some e)
  ∧ (∀ l : list pyval, certify_names (PList l) ≠ Ok false)
  ∧ certify_names (PList [PStr ""]) = Raise (ValueError "variable name must be nonempty")
  ∧ certify_names (PList [PStr "_x"])
    = Raise (ValueError ("variable name " +:+ py_repr (PStr "_x")
                         +:+ " does not start with a letter"))
  ∧ certify_names (PList [PStr "x"; PStr "x"])
    = Raise (ValueError ("variable name " +:+ py_repr (PStr "x")
                         +:+ " appears more than once"))
  ∧ certify_names (PList [PStr "x'"])
    = Raise (ValueError ("variable name " +:+ py_repr (PStr "x'")
                         +:+ " is not alphanumeric")).
Proof.
  assert (Hfirst : ∀ (ns1 : list string) (N : pyval) (l2 : list pyval) (e : exception),
      certify_names (PList (PStr <$> ns1)) = Ok true →
      rule_broken ns1 N = Some e →
      certify_names (PList ((PStr <$> ns1) ++ N :: l2)) = Raise e).
  { intros ns1 N l2 e Hpre Hrule. cbn in *.
    destruct (certify_loop_app ∅ [] ns1 (N :: l2) empty_seen Hpre) as (s' & Hs' & ->).
    rewrite (certify_loop_step s' ns1 N l2 Hs'), Hrule. reflexivity. }
  split; [| split; [exact Hfirst | split; [| split]]].
  - intros l. cbn. split.
    + intros Hrun. apply certify_loop_Ok in Hrun as [_ Hns]. exact Hns.
    + intros (ns & -> & Hall & Hnd).
      apply (certify_loop_accepts ∅ [] ns empty_seen Hall Hnd).
      intros n _ Hn. inversion Hn.
  - intros l e Hrun. cbn in Hrun.
    destruct (certify_loop_outcome ∅ [] l empty_seen)
      as [(ns & -> & Hok & _) | (ns1 & N & l2 & e' & -> & Hpre & Hrule & Hraise)].
    + rewrite Hok in Hrun. discriminate.
    + rewrite Hraise in Hrun. injection Hrun as <-.
      exists ns1, N, l2. auto.
  - intros l Hrun. cbn in Hrun. apply certify_loop_Ok in Hrun as [Hb _]. discriminate.
  - split; [reflexivity |]. split; [reflexivity |]. split; [| reflexivity].
    apply (Hfirst ["x"] (PStr "x") []); reflexivity.
Qed.


End NameProperties.

(** ** Python equality *)

Section Equality.

Context {Cat : Type} `{EqDecision Cat}.

Lemma pyval_eqb_eq : ∀ a b : @pyval Cat, pyval_eqb a b = true ↔ a = b.
Proof.
  fix IH 1. intros a b.
  destruct a as [| x | x | l1 | l1 | c | r], b as [| y | y | l2 | l2 | d | q];
    cbn; try (split; [discriminate | intros [=]]; fail).
  - split; reflexivity.
  - rewrite Z.eqb_eq. split; [intros -> | intros [=]]; done.
  - rewrite String.eqb_eq. split; [intros -> | intros [=]]; done.
  - revert l2. induction l1 as [| v l1 IHl]; intros [| u l2];
      try (split; [discriminate | intros [=]]; fail); [split; reflexivity |].
    rewrite andb_true_iff, (IH v u). specialize (IHl l2).
    split.
    + intros [-> Hl]. apply IHl in Hl. injection Hl as ->. reflexivity.
    + intros [= -> ->]. split; [reflexivity |]. apply IHl. reflexivity.
  - revert l2. induction l1 as [| v l1 IHl]; intros [| u l2];
      try (split; [discriminate | intros [=]]; fail); [split; reflexivity |].
    rewrite andb_true_iff, (IH v u). specialize (IHl l2).
    split.
    + intros [-> Hl]. apply IHl in Hl. injection Hl as ->. reflexivity.
    + intros [= -> ->]. split; [reflexivity |]. apply IHl. reflexivity.
  - rewrite bool_decide_eq_true. split; [intros -> | intros [=]]; done.
  - rewrite Pos.eqb_eq. split; [intros -> | intros [=]]; done.
Qed.

Lemma pyval_eqb_neq (a b : @pyval Cat) : pyval_eqb a b = false ↔ a ≠ b.
Proof.
  rewrite <- pyval_eqb_eq. destruct (pyval_eqb a b); split; congruence.
Qed.

End Equality.

(** ** Frame reasoning in the method monad *)

Section Frames.

Context {Cat Val W : Type}.

Lemma preserves_ret {X A} (f : @state Cat Val W → X) (a : A) : preserves f (ret a).
Proof. intros st. reflexivity. Qed.

Lemma preserves_raise {X A} (f : @state Cat Val W → X) (e : exception) :
  preserves f (@raise Cat Val W A e).
Proof. intros st. reflexivity. Qed.

Lemma preserves_lift {X A} (f : @state Cat Val W → X) (r : result A) :
  preserves f (lift r).
Proof. intros st. reflexivity. Qed.

Lemma preserves_get {X A} (f : @state Cat Val W → X) (g : CategoryObject → A) :
  preserves f (get g).
Proof. intros st. reflexivity. Qed.

Lemma preserves_modify {X} (f : @state Cat Val W → X) (g : CategoryObject → CategoryObject) :
  (∀ o w, f (mkState (g o) w) = f (mkState o w)) → preserves f (modify g).
Proof. intros Hg [o w]. apply Hg. Qed.

Lemma preserves_bind {X A B} (f : @state Cat Val W → X) (m : M A) (k : A → M B) :
  preserves f m → (∀ a, preserves f (k a)) → preserves f (bind m k).
Proof.
  intros Hm Hk st. unfold bind. specialize (Hm st).
  destruct (m st) as [[a | e] st']; cbn in *; [| exact Hm].
  rewrite (Hk a st'). exact Hm.
Qed.

Lemma preserves_try_except {X A} (f : @state Cat Val W → X) (m : M A)
    (caught : exception → bool) (handler : M A) :
  preserves f m → preserves f handler → preserves f (try_except m caught handler).
Proof.
  intros Hm Hh st. unfold try_except. specialize (Hm st).
  destruct (m st) as [[a | e] st']; cbn in *; [exact Hm |].
  destruct (caught e); [| exact Hm]. rewrite (Hh st'). exact Hm.
Qed.

End Frames.

Create HintDb frame discriminated.
#[export] Hint Resolve preserves_ret preserves_raise preserves_lift preserves_get : frame.

(** Walks through a method body: binds, handlers, conditionals and matches;
    the leaves are closed from the hint database, an assignment by
    computing the observation on both sides. *)
Ltac frame :=
  repeat first
    [ progress intros
    | solve [auto 1 with frame]
    | apply preserves_bind
    | apply preserves_try_except
    | apply preserves_modify; intros; reflexivity
    | match goal with
      | |- preserves _ (if ?b then _ else _) => destruct b
      | |- preserves _ (match ?x with _ => _ end) => destruct x
      end ].

(** ** The class *)

Section ObjectProperties.

Context {Cat : Type} `{EqDecision Cat} {Val W : Type}.
Variable join : list Cat → Cat.
Variables py_repr py_type py_display : @pyval Cat → string.
Variable defaults_variable_names : Z → string → list string.
Variable getattr_from_other_class :
  @CategoryObject Cat Val → @lookup_class Cat → string → W → result Val * W.
Variables Objects Fields CommutativeRings Rings : Cat.
Variables CommutativeAlgebras Algebras : @pyval Cat → result Cat.
Variables is_field is_ring is_commutative : @CategoryObject Cat Val → result bool.

Local Abbreviation normalize_names :=
  (normalize_names py_repr py_type py_display defaults_variable_names).
Local Abbreviation names_to_assign :=
  (names_to_assign py_repr py_type py_display defaults_variable_names).
Local Abbreviation _assign_names :=
  (_assign_names py_repr py_type py_display defaults_variable_names).
Local Abbreviation _init_category_ :=
  (_init_category_ join Fields CommutativeRings Rings CommutativeAlgebras Algebras
                   is_field is_ring is_commutative).
Local Abbreviation _refine_category_ :=
  (_refine_category_ join Fields CommutativeRings Rings CommutativeAlgebras Algebras
                     is_field is_ring is_commutative).
Local Abbreviation getattr_from_category := (getattr_from_category getattr_from_other_class).
Local Abbreviation __setstate__ := (__setstate__ join).
Local Abbreviation category := (category Objects).
Local Abbreviation but_category := (@but_category Cat Val W).
Local Abbreviation but_pickled := (@but_pickled Cat Val W).

Local Notation "'let!' x := m 'in' k" := (bind m (fun x => k))
  (at level 10, x pattern, m at level 100, k at level 200).

Implicit Types (o : @CategoryObject Cat Val) (w : W) (st : @state Cat Val W).

Lemma set_names_same o : set_names (_names o) o = o.
Proof. destruct o. reflexivity. Qed.

Lemma set_category_same o : set_category (_category o) o = o.
Proof. destruct o. reflexivity. Qed.

Lemma is_None_true (v : @pyval Cat) : is_None v = true ↔ v = PNone.
Proof. destruct v; cbn; split; congruence. Qed.

Lemma is_None_false (v : @pyval Cat) : is_None v = false ↔ v ≠ PNone.
Proof. destruct v; cbn; split; congruence. Qed.

Lemma variable_names_run o w :
  variable_names (mkState o w)
  = (if is_None (_names o)
     then Raise (ValueError
            "variable names have not yet been set using self._assign_names(...)")
     else Ok (_names o),
     mkState o w).
Proof.
  unfold variable_names, bind, get, ret, raise. cbn.
  destruct (is_None (_names o)); reflexivity.
Qed.

Lemma category_run o w :
  fst (category (mkState o w))
  = Ok (if is_None (_category o) then PCat Objects else _category o).
Proof.
  unfold category_object.category, bind, get, modify, ret. cbn [self world].
  destruct (_category o) eqn:Hcat; cbn; rewrite ?Hcat; reflexivity.
Qed.

(** C8. [variable_names()] returns the names slot when it holds something and
    raises the [ValueError] of an unset field when it holds [None]; it
    raises if and only if the names are unset, which is the case of a
    freshly created object, and it never changes the object. *)
Theorem variable_names_iff_set :
  (∀ o w, variable_names (mkState o w)
          = (if is_None (_names o)
             then Raise (ValueError
                    "variable names have not yet been set using self._assign_names(...)")
             else Ok (_names o),
             mkState o w))
  ∧ (∀ o w, (∃ e, fst (variable_names (mkState o w)) = Raise e) ↔ _names o = PNone)
  ∧ (∀ id has_dict w,
       fst (variable_names (mkState (@__cinit__ Cat Val id has_dict) w))
       = Raise (ValueError
                  "variable names have not yet been set using self._assign_names(...)")).
Proof.
  split; [exact variable_names_run | split].
  - intros o w. rewrite variable_names_run. cbn. rewrite <- is_None_true.
    destruct (is_None (_names o)); split; try congruence; eauto.
    intros [e He]. discriminate.
  - intros id has_dict w. rewrite variable_names_run. reflexivity.
Qed.

(** A successful assignment always leaves a tuple in the names slot. *)
Lemma assign_names_sets_tuple o w (names : pyval) (normalize : bool) (ngens : option Z) st' :
  names ≠ PNone →
  _assign_names names normalize ngens (mkState o w) = (Ok tt, st') →
  ∃ t, _names (self st') = PTuple t.
Proof.
  intros Hsome%is_None_false Hrun.
  unfold category_object._assign_names in Hrun. rewrite Hsome in Hrun.
  unfold bind, lift, ret, get, raise, modify in Hrun.
  destruct normalize.
  - destruct (normalize_names _ names) as [v | e]; [| discriminate].
    cbn [self world] in Hrun.
    destruct (negb (is_None (_names o)) && negb (pyval_eqb v (_names o)));
      [discriminate |].
    destruct v; try discriminate; injection Hrun as <-; cbn; eauto.
  - cbn [self world] in Hrun.
    destruct (negb (is_None (_names o)) && negb (pyval_eqb names (_names o)));
      [discriminate |].
    destruct names; try discriminate; injection Hrun as <-; cbn; eauto.
Qed.


(** *** Dynamic attribute lookup *)

Lemma getattr_hit o w name v :
  __cached_methods o !! name = Some v →
  getattr_from_category name (mkState o w) = (Ok v, mkState o w).
Proof.
  intros Hhit. unfold category_object.getattr_from_category, bind, get. cbn [self world].
  rewrite Hhit. reflexivity.
Qed.

Lemma getattr_miss o w name cls :
  __cached_methods o !! name = None → searches o cls →
  getattr_from_category name (mkState o w)
  = match getattr_from_other_class o cls name w with
    | (Ok v, w') =>
        (Ok v, mkState (set_cached_methods (<[name := v]> (__cached_methods o)) o) w')
    | (Raise e, w') => (Raise e, mkState o w')
    end.
Proof.
  intros Hmiss Hcls.
  unfold category_object.getattr_from_category, bind, get. cbn [self world].
  rewrite Hmiss. cbn [self world].
  destruct Hcls as [[Hcat ->] | (c & Hcat & ->)]; rewrite Hcat; cbn [is_None];
    unfold ret, lift, call_resolver, modify; cbn [get_parent_class self world];
    destruct (getattr_from_other_class o _ name w) as [[v | e] w']; reflexivity.
Qed.

(** C1. When the cache has no entry for [name] and the behavior table of
    the object's category supplies it, the first lookup returns the
    resolved value after storing it in the cache, and a second lookup
    returns the same value without calling the resolver (the state,
    resolver included, is untouched).  Any lookup that hits the cache
    returns the cached value and calls nothing.  When the cache misses and
    the resolver raises (the [AttributeError] of an attribute found
    nowhere), the lookup raises that error. *)
Theorem getattr_from_category_memoizes :
  (∀ o w name c v w',
      __cached_methods o !! name = None → _category o = PCat c →
      getattr_from_other_class o (parent_class c) name w = (Ok v, w') →
      let st1 := mkState (set_cached_methods (<[name := v]> (__cached_methods o)) o) w' in
      getattr_from_category name (mkState o w) = (Ok v, st1)
      ∧ __cached_methods (self st1) !! name = Some v
      ∧ getattr_from_category name st1 = (Ok v, st1))
  ∧ (∀ o w name v,
      __cached_methods o !! name = Some v →
      getattr_from_category name (mkState o w) = (Ok v, mkState o w))
  ∧ (∀ o w name cls e w',
      __cached_methods o !! name = None → searches o cls →
      getattr_from_other_class o cls name w = (Raise e, w') →
      fst (getattr_from_category name (mkState o w)) = Raise e).
Proof.
  split; [| split].
  - intros o w name c v w' Hmiss Hcat Hres st1.
    assert (Hstored : __cached_methods (self st1) !! name = Some v)
      by (cbn; apply lookup_insert_eq).
    split; [| split; [exact Hstored |]].
    + rewrite (getattr_miss o w name (parent_class c) Hmiss), Hres; [reflexivity |].
      right. exists c. auto.
    + apply getattr_hit. exact Hstored.
  - apply getattr_hit.
  - intros o w name cls e w' Hmiss Hcls Hres.
    rewrite (getattr_miss o w name cls Hmiss Hcls), Hres. reflexivity.
Qed.

(** *** Refinement *)

Lemma _init_category_frame (A : pyval) : preserves but_category (_init_category_ A).
Proof. unfold category_object._init_category_. frame. Qed.

Lemma _refine_category_frame (A : pyval) : preserves but_category (_refine_category_ A).
Proof.
  unfold category_object._refine_category_.
  apply preserves_bind; [apply preserves_get |]. intros current.
  destruct (is_None current); [apply _init_category_frame |]. frame.
Qed.

Lemma _refine_category_cache (A : pyval) st :
  __cached_methods (self (snd (_refine_category_ A st))) = __cached_methods (self st).
Proof.
  pose proof (_refine_category_frame A st) as Hframe.
  apply (f_equal (fun p => __cached_methods (fst p))) in Hframe. exact Hframe.
Qed.

Lemma _refine_category_join o w (c a : Cat) :
  _category o = PCat c →
  _refine_category_ (PCat a) (mkState o w)
  = (Ok tt, mkState (set_category (PCat (join [c; a])) o) w).
Proof.
  intros Hcat. unfold category_object._refine_category_, bind, get. cbn [self world].
  rewrite Hcat. reflexivity.
Qed.

Lemma _refine_category_world (A : pyval) st :
  world (snd (_refine_category_ A st)) = world st.
Proof.
  pose proof (_refine_category_frame A st) as Hframe.
  apply (f_equal snd) in Hframe. exact Hframe.
Qed.


(** C9. With an associative join, refining an initialized object with [A]
    and then with [B] ends in the same state as refining it once with
    [join([A, B])]: the category becomes the join of the original category
    with [join([A, B])]. *)
Theorem refine_twice_is_refine_join o w (c A B : Cat) :
  (∀ x y z, join [join [x; y]; z] = join [x; join [y; z]]) →
  _category o = PCat c →
  bind (_refine_category_ (PCat A)) (fun _ => _refine_category_ (PCat B)) (mkState o w)
  = _refine_category_ (PCat (join [A; B])) (mkState o w)
  ∧ _refine_category_ (PCat (join [A; B])) (mkState o w)
    = (Ok tt, mkState (set_category (PCat (join [c; join [A; B]])) o) w).
Proof.
  intros Hassoc Hcat.
  rewrite (_refine_category_join o w c (join [A; B]) Hcat).
  split; [| reflexivity].
  unfold bind at 1. rewrite (_refine_category_join o w c A Hcat).
  rewrite (_refine_category_join _ w (join [c; A]) B); [| reflexivity].
  rewrite Hassoc. reflexivity.
Qed.

(** C10. A lookup that misses the cache and whose resolution raises leaves
    the object, and so its attribute cache, unchanged; if the category is
    then refined and the behavior table of the new category supplies the
    name, the next lookup of the same name succeeds. *)
Theorem failed_lookup_caches_nothing o w name cls e w' :
  __cached_methods o !! name = None → searches o cls →
  getattr_from_other_class o cls name w = (Raise e, w') →
  getattr_from_category name (mkState o w) = (Raise e, mkState o w')
  ∧ __cached_methods (self (snd (getattr_from_category name (mkState o w))))
    = __cached_methods o
  ∧ ∀ (A : pyval) st2 c' v w3,
      _refine_category_ A (snd (getattr_from_category name (mkState o w))) = (Ok tt, st2) →
      _category (self st2) = PCat c' →
      getattr_from_other_class (self st2) (parent_class c') name (world st2) = (Ok v, w3) →
      fst (getattr_from_category name st2) = Ok v.
Proof.
  intros Hmiss Hcls Hres.
  assert (Hrun : getattr_from_category name (mkState o w) = (Raise e, mkState o w'))
    by (rewrite (getattr_miss o w name cls Hmiss Hcls), Hres; reflexivity).
  rewrite Hrun. cbn [snd self].
  split; [reflexivity |]. split; [reflexivity |].
  intros A [o2 w2] c' v w3 Hrefine Hcat Hres2. cbn [self world] in *.
  pose proof (_refine_category_cache A (mkState o w')) as Hcache.
  rewrite Hrefine in Hcache. cbn in Hcache.
  rewrite (getattr_miss o2 w2 name (parent_class c')), Hres2; [reflexivity | |].
  - rewrite Hcache. exact Hmiss.
  - right. exists c'. auto.
Qed.

(** *** Pickling *)

(** The instance dictionary after [self.__dict__ = d]. *)
Local Abbreviation with_dict d o o' :=
  (match __dict__ o with Some _ => set_dict (Some d) o' | None => o' end).

Lemma __getstate___spec o w :
  ∃ d, __getstate__ (mkState o w) = (Ok d, mkState o w)
       ∧ d !! "_pickle_version" = Some (PInt 1)
       ∧ d !! "_category" = Some (_category o)
       ∧ d !! "_base" = Some (_base o)
       ∧ d !! "_names" = Some (_names o).
Proof.
  exists (<["_pickle_version" := PInt 1]>
            (<["_names" := _names o]>
               (<["_base" := _base o]>
                  (<["_category" := _category o]>
                     (match __dict__ o with Some dict => dict | None => ∅ end))))).
  split; [reflexivity |].
  repeat split; simplify_map_eq; reflexivity.
Qed.

Lemma __setstate___frame (d : gmap string pyval) : preserves but_pickled (__setstate__ d).
Proof. unfold category_object.__setstate__, getitem. frame. Qed.

(** A version-1 record whose category is [None] or is adopted by an object
    without category. *)
Lemma __setstate___adopt (d : gmap string pyval) o w (c b n : pyval) :
  d !! "_pickle_version" = Some (PInt 1) →
  d !! "_category" = Some c → d !! "_base" = Some b → d !! "_names" = Some n →
  c = PNone ∨ _category o = PNone →
  __setstate__ d (mkState o w)
  = (Ok tt,
     mkState (with_dict d o
                (set_names n (set_base b
                   (set_category (if is_None c then _category o else c) o)))) w).
Proof.
  intros Hv Hc Hb Hn Hcase.
  unfold category_object.__setstate__, getitem, bind, try_except, get, modify, ret.
  rewrite Hv. cbn [pyval_eqb Z.eqb Pos.eqb self world]. rewrite Hc. cbn [self world].
  destruct (is_None c) eqn:Hnone; cbn [negb].
  - cbn [self world]. rewrite Hb. cbn [self world]. rewrite Hn. cbn [self world set_names
      set_base __dict__]. rewrite set_category_same.
    destruct (__dict__ o); reflexivity.
  - destruct Hcase as [-> | Hcat]; [discriminate |].
    cbn [self world]. rewrite Hcat. cbn [is_None self world]. rewrite Hb.
    cbn [self world]. rewrite Hn.
    cbn [self world set_names set_base set_category __dict__].
    destruct (__dict__ o); reflexivity.
Qed.

(** A version-1 record restored into an object that has a category: the
    two categories are joined. *)
Lemma __setstate___join (d : gmap string pyval) o w (k k' : Cat) (b n : pyval) :
  d !! "_pickle_version" = Some (PInt 1) →
  d !! "_category" = Some (PCat k') → d !! "_base" = Some b → d !! "_names" = Some n →
  _category o = PCat k →
  __setstate__ d (mkState o w)
  = (Ok tt,
     mkState (with_dict d o
                (set_names n (set_base b (set_category (PCat (join [k; k'])) o)))) w).
Proof.
  intros Hv Hc Hb Hn Hcat.
  unfold category_object.__setstate__, getitem, bind, try_except, get, modify, ret, lift.
  rewrite Hv. cbn [pyval_eqb Z.eqb Pos.eqb self world]. rewrite Hc.
  cbn [is_None negb self world]. rewrite Hcat.
  cbn [is_None call_join Category_join as_categories self world]. cbn.
  rewrite Hb. cbn. rewrite Hn. cbn.
  destruct (__dict__ o); reflexivity.
Qed.

(** C3 (as the code has it). The record written by [__getstate__],
    restored by [__setstate__] into a freshly created object, reproduces
    the category, the base and the names exactly, and that object has the
    empty attribute cache and the not-yet-computed hash that [__cinit__]
    gave it.  Restored into the object it was taken from, the record
    reproduces the three fields as well when the category slot holds [None]
    or a category on which join is idempotent.  [__setstate__] itself never
    touches the attribute cache or the hash cache: whatever the record and
    the outcome, both are after the call what they were before. *)
Theorem pickle_roundtrip :
  (∀ o w id has_dict w2,
      ∃ d o', __getstate__ (mkState o w) = (Ok d, mkState o w)
        ∧ __setstate__ d (mkState (__cinit__ id has_dict) w2) = (Ok tt, mkState o' w2)
        ∧ _category o' = _category o ∧ _base o' = _base o ∧ _names o' = _names o
        ∧ fst (category (mkState o' w2)) = fst (category (mkState o w))
        ∧ fst (base (mkState o' w2)) = fst (base (mkState o w))
        ∧ fst (variable_names (mkState o' w2)) = fst (variable_names (mkState o w))
        ∧ __cached_methods o' = ∅ ∧ _hash_value o' = -1)
  ∧ (∀ o w,
      _category o = PNone ∨ (∃ k, _category o = PCat k ∧ join [k; k] = k) →
      ∃ d o', __getstate__ (mkState o w) = (Ok d, mkState o w)
        ∧ __setstate__ d (mkState o w) = (Ok tt, mkState o' w)
        ∧ _category o' = _category o ∧ _base o' = _base o ∧ _names o' = _names o
        ∧ __cached_methods o' = __cached_methods o ∧ _hash_value o' = _hash_value o)
  ∧ (∀ (d : gmap string pyval) st,
      but_pickled (snd (__setstate__ d st)) = but_pickled st)
  ∧ (∀ (d : gmap string pyval) st,
      __cached_methods (self (snd (__setstate__ d st))) = __cached_methods (self st)
      ∧ _hash_value (self (snd (__setstate__ d st))) = _hash_value (self st)).
Proof.
  split; [| split; [| split; [exact __setstate___frame |]]].
  - intros o w id has_dict w2.
    destruct (__getstate___spec o w) as (d & Hget & Hv & Hc & Hb & Hn).
    eexists d, _. split; [exact Hget |].
    split; [apply (__setstate___adopt d _ w2 _ _ _ Hv Hc Hb Hn); right; reflexivity |].
    assert (Hcat : (if is_None (_category o) then PNone else _category o) = _category o)
      by (destruct (_category o); reflexivity).
    rewrite !category_run, !variable_names_run. unfold base, get.
    destruct has_dict; cbn; rewrite Hcat; repeat split; reflexivity.
  - intros o w Hcat.
    destruct (__getstate___spec o w) as (d & Hget & Hv & Hc & Hb & Hn).
    destruct Hcat as [Hnone | (k & Hk & Hidem)].
    + eexists d, _. split; [exact Hget |].
      split; [apply (__setstate___adopt d o w _ _ _ Hv Hc Hb Hn); right; exact Hnone |].
      rewrite Hnone. destruct (__dict__ o); cbn; auto.
    + rewrite Hk in Hc. eexists d, _. split; [exact Hget |].
      split; [apply (__setstate___join d o w k k _ _ Hv Hc Hb Hn Hk) |].
      rewrite Hidem, Hk. destruct (__dict__ o); cbn; auto.
  - intros d st. pose proof (__setstate___frame d st) as Hframe.
    split.
    + apply (f_equal (fun p => __cached_methods (fst p))) in Hframe. exact Hframe.
    + apply (f_equal (fun p => _hash_value (fst p))) in Hframe. exact Hframe.
Qed.

(** C4 (as the code has it). A record whose version tag is neither 1 nor 0
    is accepted: [__setstate__] returns without raising, it leaves the
    category, the base, the names, the attribute cache and the hash as
    they were, and only replaces the instance dictionary (when the class
    has one) by the record. *)
Theorem unknown_version_is_accepted (d : gmap string pyval) o w (version : pyval) :
  d !! "_pickle_version" = Some version →
  version ≠ PInt 1 → version ≠ PInt 0 →
  __setstate__ d (mkState o w) = (Ok tt, mkState (with_dict d o o) w).
Proof.
  intros Hv H1 H0.
  apply pyval_eqb_neq in H1. apply pyval_eqb_neq in H0.
  unfold category_object.__setstate__, getitem, bind, try_except, get, modify, ret.
  rewrite Hv, H1, H0. cbn [self world].
  destruct (__dict__ o); reflexivity.
Qed.

End ObjectProperties.

(** ** The documented examples

    The doctests of the source file, run on the concrete instance. *)

Example doctest_nn_comma_spaces :
  normalize_names Demo.repr Demo.type_name Demo.repr Demo.variable_names 3 (PStr "x, y, z")
  = Ok (PTuple [PStr "x"; PStr "y"; PStr "z"]).
Proof. vm_compute. reflexivity. Qed.

Example doctest_nn_prefix :
  normalize_names Demo.repr Demo.type_name Demo.repr Demo.variable_names 2 (PStr "z_z")
  = Ok (PTuple [PStr "z_z0"; PStr "z_z1"])
  ∧ normalize_names Demo.repr Demo.type_name Demo.repr Demo.variable_names 2 (PStr "x0")
    = Ok (PTuple [PStr "x00"; PStr "x01"])
  ∧ normalize_names Demo.repr Demo.type_name Demo.repr Demo.variable_names 1 (PStr "a")
    = Ok (PTuple [PStr "a"]).
Proof. repeat split; vm_compute; reflexivity. Qed.

Example doctest_nn_strip :
  normalize_names Demo.repr Demo.type_name Demo.repr Demo.variable_names 3
    (PTuple [PStr " a "; PStr " bb "; PStr " ccc "])
  = Ok (PTuple [PStr "a"; PStr "bb"; PStr "ccc"]).
Proof. vm_compute. reflexivity. Qed.

Example doctest_nn_empty :
  normalize_names Demo.repr Demo.type_name Demo.repr Demo.variable_names 0 (PStr "")
  = Ok (PTuple [])
  ∧ normalize_names Demo.repr Demo.type_name Demo.repr Demo.variable_names 0 (PList [])
    = Ok (PTuple [])
  ∧ normalize_names Demo.repr Demo.type_name Demo.repr Demo.variable_names 0 PNone
    = Ok (PTuple []).
Proof. repeat split; vm_compute; reflexivity. Qed.

Example doctest_nn_errors :
  normalize_names Demo.repr Demo.type_name Demo.repr Demo.variable_names 1 (PStr "")
  = Raise (ValueError "variable name must be nonempty")
  ∧ normalize_names Demo.repr Demo.type_name Demo.repr Demo.variable_names 1 (PStr "foo@")
    = Raise (ValueError "variable name 'foo@' is not alphanumeric")
  ∧ normalize_names Demo.repr Demo.type_name Demo.repr Demo.variable_names 2 (PStr "_foo")
    = Raise (ValueError "variable name '_foo0' does not start with a letter").
Proof. repeat split; vm_compute; reflexivity. Qed.

Example doctest_cn :
  certify_names Demo.repr Demo.type_name (PList [PStr "a"; PStr "b"; PStr "c"]) = Ok true
  ∧ certify_names Demo.repr Demo.type_name (PStr "abc") = Ok true
  ∧ certify_names Demo.repr Demo.type_name (PList []) = Ok true
  ∧ certify_names Demo.repr Demo.type_name (PList [PStr "a"; PStr "b"; PStr "b"])
    = Raise (ValueError "variable name 'b' appears more than once").
Proof. repeat split; vm_compute; reflexivity. Qed.

Example doctest_assign_names_rename :
  fst (Demo.assign (PList [PStr "a"; PStr "b"; PStr "c"]) true None
         (mkState Demo.warm 0%nat))
  = Raise (ValueError "variable names cannot be changed after object creation.").
Proof. vm_compute. reflexivity. Qed.

Example doctest_refine_twice_same :
  Demo.refine (PCat Demo.Magmas) (snd (Demo.refine (PCat Demo.Magmas) (mkState Demo.cold 0%nat)))
  = Demo.refine (PCat Demo.Magmas) (mkState Demo.cold 0%nat).
Proof. vm_compute. reflexivity. Qed.

(** ** The properties on the concrete instance *)

Lemma demo_join_assoc (x y z : gset string) :
  Demo.join [Demo.join [x; y]; z] = Demo.join [x; Demo.join [y; z]].
Proof.
  unfold Demo.join. cbn. rewrite !(right_id_L ∅ (∪)), (assoc_L (∪)). reflexivity.
Qed.

Lemma demo_join_idem (x : gset string) : Demo.join [x; x] = x.
Proof.
  unfold Demo.join. cbn. rewrite (right_id_L ∅ (∪)), (idemp_L (∪)). reflexivity.
Qed.

Lemma getattr_from_category_memoizes_witness :
  let st1 := mkState (set_cached_methods {[ "an_element" := ("an_element", Demo.Sets) ]}
                        Demo.cold) 1%nat in
  Demo.lookup "an_element" (mkState Demo.cold 0%nat) = (Ok ("an_element", Demo.Sets), st1)
  ∧ __cached_methods (self st1) !! "an_element" = Some ("an_element", Demo.Sets)
  ∧ Demo.lookup "an_element" st1 = (Ok ("an_element", Demo.Sets), st1).
Proof.
  apply (proj1 (getattr_from_category_memoizes Demo.resolver)
           Demo.cold 0%nat "an_element" Demo.Sets ("an_element", Demo.Sets) 1%nat);
    vm_compute; reflexivity.
Defined.

Lemma failed_lookup_caches_nothing_witness :
  Demo.lookup "product" (mkState Demo.cold 0%nat)
  = (Raise (AttributeError "no attribute product"), mkState Demo.cold 1%nat)
  ∧ fst (Demo.lookup "product"
           (snd (Demo.refine (PCat Demo.Magmas)
                   (snd (Demo.lookup "product" (mkState Demo.cold 0%nat))))))
    = Ok ("product", Demo.join [Demo.Sets; Demo.Magmas]).
Proof.
  destruct (failed_lookup_caches_nothing Demo.join Demo.resolver ∅ ∅ ∅
              Demo.no_algebras Demo.no_algebras Demo.no_probe Demo.no_probe Demo.no_probe
              Demo.cold 0%nat "product" (parent_class Demo.Sets)
              (AttributeError "no attribute product") 1%nat)
    as (Hrun & _ & Hlater).
  - reflexivity.
  - right. exists Demo.Sets. split; reflexivity.
  - vm_compute. reflexivity.
  - split; [exact Hrun |].
    apply (Hlater (PCat Demo.Magmas)
             (mkState (set_category (PCat (Demo.join [Demo.Sets; Demo.Magmas])) Demo.cold)
                      1%nat)
             (Demo.join [Demo.Sets; Demo.Magmas])
             ("product", Demo.join [Demo.Sets; Demo.Magmas]) 2%nat);
      vm_compute; reflexivity.
Defined.

Lemma variable_names_iff_set_witness :
  fst (@variable_names (gset string) Demo.Val nat (mkState Demo.cold 0%nat))
  = Raise (ValueError "variable names have not yet been set using self._assign_names(...)")
  ∧ fst (@variable_names (gset string) Demo.Val nat (mkState Demo.warm 0%nat))
    = Ok (PTuple [PStr "x"; PStr "y"]).
Proof.
  split.
  - rewrite (proj1 variable_names_iff_set Demo.cold 0%nat). reflexivity.
  - rewrite (proj1 variable_names_iff_set Demo.warm 0%nat). reflexivity.
Defined.


Lemma refine_twice_is_refine_join_witness :
  _category Demo.warm = PCat Demo.Sets
  ∧ bind (Demo.refine (PCat Demo.Magmas)) (fun _ => Demo.refine (PCat Demo.Semigroups))
         (mkState Demo.warm 0%nat)
    = Demo.refine (PCat (Demo.join [Demo.Magmas; Demo.Semigroups])) (mkState Demo.warm 0%nat).
Proof.
  split; [reflexivity |].
  apply (refine_twice_is_refine_join Demo.join ∅ ∅ ∅ Demo.no_algebras Demo.no_algebras
           Demo.no_probe Demo.no_probe Demo.no_probe
           Demo.warm 0%nat Demo.Sets Demo.Magmas Demo.Semigroups demo_join_assoc eq_refl).
Defined.



(** C3, as stated, fails: restoring the captured state of an object that has
    a cached binding and a computed hash leaves both in place. *)
Lemma restore_does_not_reset_caches :
  Demo.capture (mkState Demo.warm 0%nat) = (Ok Demo.warm_record, mkState Demo.warm 0%nat)
  ∧ fst (Demo.restore Demo.warm_record (mkState Demo.warm 0%nat)) = Ok tt
  ∧ __cached_methods (self (snd (Demo.restore Demo.warm_record (mkState Demo.warm 0%nat))))
    ≠ ∅
  ∧ _hash_value (self (snd (Demo.restore Demo.warm_record (mkState Demo.warm 0%nat))))
    ≠ -1.
Proof.
  split; [vm_compute; reflexivity |].
  split; [vm_compute; reflexivity |]. split.
  - intros Hempty.
    apply (f_equal (fun m : gmap string Demo.Val => m !! "an_element")) in Hempty.
    vm_compute in Hempty. discriminate.
  - vm_compute. discriminate.
Qed.

Lemma pickle_roundtrip_witness :
  ∃ d o',
    Demo.capture (mkState Demo.warm 0%nat) = (Ok d, mkState Demo.warm 0%nat)
    ∧ Demo.restore d (mkState Demo.warm 0%nat) = (Ok tt, mkState o' 0%nat)
    ∧ _category o' = _category Demo.warm ∧ _base o' = _base Demo.warm
    ∧ _names o' = _names Demo.warm
    ∧ __cached_methods o' = __cached_methods Demo.warm
    ∧ _hash_value o' = _hash_value Demo.warm.
Proof.
  destruct (@pickle_roundtrip (gset string) _ Demo.Val nat Demo.join ∅) as (_ & Hplace & _).
  apply (Hplace Demo.warm 0%nat).
  right. exists Demo.Sets. split; [reflexivity | apply demo_join_idem].
Defined.

(** C4, as stated, fails: a record tagged with version 2 is restored without
    any error. *)
Lemma unknown_version_does_not_fail :
  Demo.future_record !! "_pickle_version" = Some (PInt 2)
  ∧ fst (Demo.restore Demo.future_record (mkState Demo.warm 0%nat)) = Ok tt.
Proof. split; vm_compute; reflexivity. Qed.

Lemma unknown_version_is_accepted_witness :
  Demo.future_record !! "_pickle_version" = Some (PInt 2)
  ∧ Demo.restore Demo.future_record (mkState Demo.warm 0%nat)
    = (Ok tt, mkState Demo.warm 0%nat).
Proof.
  split; [vm_compute; reflexivity |].
  apply (unknown_version_is_accepted Demo.join Demo.future_record Demo.warm 0%nat (PInt 2));
    [vm_compute; reflexivity | discriminate | discriminate].
Defined.

Lemma certify_names_first_violation_witness :
  certify_names Demo.repr Demo.type_name (PList [PStr "x"]) = Ok true
  ∧ certify_names Demo.repr Demo.type_name (PList [PStr "x"; PStr "2y"; PStr "x"])
    = Raise (ValueError "variable name '2y' does not start with a letter").
Proof.
  assert (Hpre : certify_names Demo.repr Demo.type_name
                   (PList (@PStr (gset string) <$> ["x"])) = Ok true)
    by (vm_compute; reflexivity).
  split; [exact Hpre |].
  destruct (@certify_names_first_violation (gset string) Demo.repr Demo.type_name)
    as (_ & Hfirst & _).
  apply (Hfirst ["x"] (PStr "2y") [PStr "x"] _ Hpre). reflexivity.
Defined.


(** * Further properties of the code *)

(** ** Well-formed names and whitespace *)

Lemma name_char_not_space c : name_char c = true → PyStr.isspace_c c = false.
Proof.
  destruct c as [[] [] [] [] [] [] [] []]; vm_compute; intros; congruence.
Qed.

Lemma name_char_not_comma c : name_char c = true → Ascii.eqb c "," = false.
Proof.
  destruct c as [[] [] [] [] [] [] [] []]; vm_compute; intros; congruence.
Qed.

Lemma isalpha_c_name_char c : PyStr.isalpha_c c = true → name_char c = true.
Proof. intros Hc. unfold name_char, PyStr.isalnum_c. rewrite Hc. reflexivity. Qed.

Lemma all_c_impl (p q : ascii → bool) s :
  (∀ c, p c = true → q c = true) → PyStr.all_c p s = true → PyStr.all_c q s = true.
Proof.
  intros Hpq. induction s as [| a s IH]; cbn; [reflexivity |].
  intros [Ha Hs]%andb_true_iff. rewrite (Hpq a Ha), (IH Hs). reflexivity.
Qed.

Lemma all_c_rev_app p s t :
  PyStr.all_c p (String.rev_app s t) = PyStr.all_c p s && PyStr.all_c p t.
Proof.
  revert t. induction s as [| a s IH]; intros t; cbn; [reflexivity |].
  rewrite IH. cbn. destruct (p a), (PyStr.all_c p s); reflexivity.
Qed.

Lemma rev_app_rev_app s t u :
  String.rev_app (String.rev_app s t) u = String.rev_app t (s +:+ u).
Proof.
  revert t u. induction s as [| a s IH]; intros t u; cbn; [reflexivity |].
  rewrite IH. reflexivity.
Qed.

Lemma append_empty_r s : s +:+ "" = s.
Proof.
  induction s as [| a s IH]; [reflexivity |].
  change (String a s +:+ "") with (String a (s +:+ "")). rewrite IH. reflexivity.
Qed.

Lemma lstrip_id s :
  PyStr.all_c (fun c => negb (PyStr.isspace_c c)) s = true → PyStr.lstrip s = s.
Proof.
  destruct s as [| a s]; cbn; [reflexivity |].
  intros [Ha _]%andb_true_iff. apply negb_true_iff in Ha. rewrite Ha. reflexivity.
Qed.

(** Stripping leaves a string without whitespace as it is. *)
Lemma strip_id s :
  PyStr.all_c (fun c => negb (PyStr.isspace_c c)) s = true → PyStr.strip s = s.
Proof.
  intros Hs. unfold PyStr.strip. rewrite (lstrip_id s Hs).
  rewrite lstrip_id.
  - unfold String.rev. rewrite rev_app_rev_app. cbn [String.rev_app]. apply append_empty_r.
  - unfold String.rev. rewrite all_c_rev_app, Hs. reflexivity.
Qed.

Lemma name_ok_all_name_char n : name_ok n → PyStr.all_c name_char n = true.
Proof.
  intros (c & rest & -> & Hc & Hrest). cbn.
  rewrite (isalpha_c_name_char c Hc), Hrest. reflexivity.
Qed.

Lemma name_ok_strip n : name_ok n → PyStr.strip n = n.
Proof.
  intros Hn. apply strip_id. apply (all_c_impl name_char); [| apply name_ok_all_name_char, Hn].
  intros c Hc. rewrite (name_char_not_space c Hc). reflexivity.
Qed.

Lemma all_name_char_no_comma s : PyStr.all_c name_char s = true → PyStr.contains "," s = false.
Proof.
  induction s as [| a s IH]; cbn; [reflexivity |].
  intros [Ha Hs]%andb_true_iff. rewrite (name_char_not_comma a Ha), (IH Hs). reflexivity.
Qed.

Lemma chars_name_ok s : Forall name_ok (PyStr.chars s) ↔ PyStr.all_c PyStr.isalpha_c s = true.
Proof.
  induction s as [| a s IH]; cbn.
  - split; [reflexivity | constructor].
  - rewrite Forall_cons, andb_true_iff, IH. split; intros [Ha Hs]; (split; [| exact Hs]).
    + destruct Ha as (c & rest & [= <- <-] & Hc & _). exact Hc.
    + exists a, "". auto.
Qed.

Lemma length_chars s : length (PyStr.chars s) = String.length s.
Proof. induction s as [| a s IH]; cbn; [| rewrite IH]; reflexivity. Qed.

(** ** More about [certify_names] and [normalize_names] *)

Section MoreNames.

Context {Cat : Type}.
Variables py_repr py_type py_display : @pyval Cat → string.
Variable defaults_variable_names : Z → string → list string.

Local Abbreviation certify_loop := (certify_loop py_repr py_type).
Local Abbreviation certify_names := (certify_names py_repr py_type).
Local Abbreviation names_of_spec :=
  (names_of_spec py_repr py_type py_display defaults_variable_names).
Local Abbreviation normalize_names :=
  (normalize_names py_repr py_type py_display defaults_variable_names).

Lemma PStr_fmap_inj (l1 l2 : list string) : @PStr Cat <$> l1 = PStr <$> l2 → l1 = l2.
Proof.
  revert l2. induction l1 as [| x l1 IH]; intros [| y l2]; cbn; try discriminate.
  - reflexivity.
  - intros [= -> Hl]. rewrite (IH l2 Hl). reflexivity.
Qed.

(** What a successful [normalize_names] says about its argument and result. *)
Lemma normalize_names_Ok_inv (n : Z) (spec v : pyval) :
  normalize_names n spec = Ok v →
  - 2 ^ 63 ≤ n < 2 ^ 63
  ∧ ∃ ns, v = PTuple (PStr <$> ns) ∧ Forall name_ok ns ∧ NoDup ns
          ∧ (0 ≤ n → Z.of_nat (length ns) = n).
Proof.
  unfold category_object.normalize_names, as_Py_ssize_t.
  destruct ((- 2 ^ 63 <=? n) && (n <? 2 ^ 63)) eqn:Hrange; cbn [rbind]; [| discriminate].
  apply andb_true_iff in Hrange as [Hlo%Z.leb_le Hhi%Z.ltb_lt].
  destruct (names_of_spec_total py_repr py_type py_display defaults_variable_names n spec)
    as (ns0 & c & -> & Hc).
  cbn [rbind].
  assert (Hcert : certify_names c = certify_loop ∅ (PStr <$> ns0))
    by (destruct Hc as [-> | ->]; reflexivity).
  rewrite Hcert.
  destruct (certify_loop ∅ (PStr <$> ns0)) as [b | e] eqn:Hrun; cbn [rbind]; [| discriminate].
  apply certify_loop_Ok in Hrun as (_ & ns & Heq & Hall & Hnd).
  apply PStr_fmap_inj in Heq as ->.
  assert (Hlen : py_len c = Z.of_nat (length ns))
    by (destruct Hc as [-> | ->]; cbn; rewrite length_fmap; reflexivity).
  assert (Htup : py_tuple c = PTuple (PStr <$> ns))
    by (destruct Hc as [-> | ->]; reflexivity).
  rewrite Hlen, Htup.
  destruct ((n >=? 0) && negb (Z.of_nat (length ns) =? n)) eqn:Hcount; [discriminate |].
  intros [= <-]. split; [lia |]. exists ns. repeat split; try assumption.
  intros Hn. apply andb_false_iff in Hcount as [Hge | Heq].
  - rewrite Z.geb_leb in Hge. apply Z.leb_gt in Hge. lia.
  - apply negb_false_iff, Z.eqb_eq in Heq. exact Heq.
Qed.

(** The run of [normalize_names] on a list or tuple of well-formed, distinct
    names that are already stripped. *)
Lemma normalize_names_on_names (n : Z) (ns : list string) :
  - 2 ^ 63 ≤ n < 2 ^ 63 → Forall name_ok ns → NoDup ns →
  (0 ≤ n → Z.of_nat (length ns) = n) →
  normalize_names n (PTuple (PStr <$> ns)) = Ok (PTuple (PStr <$> ns))
  ∧ normalize_names n (PList (PStr <$> ns)) = Ok (PTuple (PStr <$> ns)).
Proof.
  intros Hrange Hall Hnd Hlen.
  assert (Hstrip : (fun x => @PStr Cat (PyStr.strip (py_str py_display x))) <$> (PStr <$> ns)
                   = PStr <$> ns).
  { rewrite <- list_fmap_compose. apply list_fmap_ext.
    intros i x Hx. cbn. f_equal. apply name_ok_strip.
    rewrite Forall_forall in Hall. apply Hall. apply list_elem_of_lookup. eauto. }
  assert (Hcount : (n >=? 0) && negb (Z.of_nat (length (@PStr Cat <$> ns)) =? n) = false).
  { rewrite length_fmap. destruct (Z.leb_spec 0 n) as [Hn | Hn].
    - rewrite (proj2 (Z.eqb_eq _ _) (Hlen Hn)), andb_false_r. reflexivity.
    - replace (n >=? 0) with false; [reflexivity |].
      symmetry. rewrite Z.geb_leb. apply Z.leb_gt. lia. }
  unfold category_object.normalize_names, as_Py_ssize_t.
  replace ((- 2 ^ 63 <=? n) && (n <? 2 ^ 63)) with true
    by (symmetry; apply andb_true_iff; split; [apply Z.leb_le | apply Z.ltb_lt]; lia).
  cbn [rbind names_of_spec]. rewrite Hstrip. cbn [rbind certify_names py_iter].
  rewrite (certify_loop_accepts py_repr py_type ∅ [] ns (empty_seen) Hall Hnd)
    by (intros m _ Hm; inversion Hm).
  cbn [rbind py_len py_tuple]. rewrite Hcount. split; reflexivity.
Qed.

Lemma certify_string_accepts (s : string) :
  PyStr.all_c PyStr.isalpha_c s = true → NoDup (PyStr.chars s) →
  certify_names (PStr s) = Ok true.
Proof.
  intros Hall%chars_name_ok Hnd. cbn [category_object.certify_names py_iter rbind].
  apply (certify_loop_accepts py_repr py_type ∅ [] _ empty_seen Hall Hnd).
  intros m _ Hm. inversion Hm.
Qed.

(** X1. A string handed to [certify_names] is checked character by
    character: it is accepted exactly when all its characters are letters
    and no letter occurs twice. *)
Theorem certify_names_string (s : string) :
  certify_names (PStr s) = Ok true
  ↔ PyStr.all_c PyStr.isalpha_c s = true ∧ NoDup (PyStr.chars s).
Proof.
  split.
  - cbn [category_object.certify_names py_iter rbind]. rewrite <- chars_name_ok.
    intros Hrun. apply certify_loop_Ok in Hrun as (_ & ns & Heq & Hall & Hnd).
    apply PStr_fmap_inj in Heq as ->. auto.
  - intros [Hall Hnd]. apply certify_string_accepts; assumption.
Qed.

(** X2. [normalize_names] is idempotent: feeding a returned tuple back, with
    the same count, returns that tuple. *)
Theorem normalize_names_idempotent (n : Z) (spec v : pyval) :
  normalize_names n spec = Ok v → normalize_names n v = Ok v.
Proof.
  intros (Hrange & ns & -> & Hall & Hnd & Hlen)%normalize_names_Ok_inv.
  apply (normalize_names_on_names n ns Hrange Hall Hnd Hlen).
Qed.

(** X3. A string that contains a comma is read as the list of its
    comma-separated pieces: both arguments give the same result, error or
    tuple. *)
Theorem normalize_names_comma (n : Z) (s : string) :
  PyStr.contains "," s = true →
  normalize_names n (PStr s) = normalize_names n (PList (PStr <$> PyStr.split "," s)).
Proof.
  intros Hcomma. unfold category_object.normalize_names.
  destruct (as_Py_ssize_t n) as [m | e]; cbn [rbind]; [| reflexivity].
  assert (Hspec : names_of_spec m (PStr s)
                  = names_of_spec m (PList (PStr <$> PyStr.split "," s))).
  { cbn [category_object.names_of_spec py_str]. rewrite Hcomma. cbn [rbind].
    rewrite <- list_fmap_compose. reflexivity. }
  rewrite Hspec. reflexivity.
Qed.

(** X4. A string of [n > 1] pairwise distinct letters, given with the count
    [n], is split into its [n] one-letter names; the prefix expansion is not
    used. *)
Theorem normalize_names_char_run (n : Z) (s : string) :
  1 < n < 2 ^ 63 → Z.of_nat (String.length s) = n →
  PyStr.all_c PyStr.isalpha_c s = true → NoDup (PyStr.chars s) →
  normalize_names n (PStr s) = Ok (PTuple (PStr <$> PyStr.chars s)).
Proof.
  intros Hn Hlen Halpha Hnd.
  assert (Hcert : certify_names (PStr s) = Ok true)
    by (apply certify_string_accepts; assumption).
  unfold category_object.normalize_names, as_Py_ssize_t.
  replace ((- 2 ^ 63 <=? n) && (n <? 2 ^ 63)) with true
    by (symmetry; apply andb_true_iff; split; [apply Z.leb_le | apply Z.ltb_lt]; lia).
  cbn [rbind category_object.names_of_spec py_str].
  rewrite (all_name_char_no_comma s (all_c_impl _ _ s isalpha_c_name_char Halpha)).
  replace ((n >? 1) && (Z.of_nat (String.length s) =? n)) with true
    by (symmetry; apply andb_true_iff; split; [apply Z.gtb_lt; lia | apply Z.eqb_eq, Hlen]).
  rewrite Hcert. cbn [rbind py_tuple].
  change (category_object.certify_names py_repr py_type (PTuple (PStr <$> PyStr.chars s)))
    with (certify_names (PStr s)).
  rewrite Hcert. cbn [rbind py_len py_tuple].
  rewrite length_fmap, length_chars, (proj2 (Z.eqb_eq _ _) Hlen), andb_false_r.
  reflexivity.
Qed.

(** X5. With an unknown count ([ngens < 0]) the prefix expansion of
    [sage.misc.defaults.variable_names] plays no part in the result, and a
    single well-formed name is returned as the one-element tuple. *)
Theorem normalize_names_unknown_count (n : Z) :
  - 2 ^ 63 ≤ n < 0 →
  (∀ (other_defaults : Z → string → list string) (spec : pyval),
      normalize_names n spec
      = category_object.normalize_names py_repr py_type py_display other_defaults n spec)
  ∧ (∀ s : string, name_ok s → normalize_names n (PStr s) = Ok (PTuple [PStr s])).
Proof.
  intros Hn.
  assert (Hneg : (n <? 0) = true) by (apply Z.ltb_lt; lia).
  assert (Hrange : as_Py_ssize_t n = Ok n).
  { unfold as_Py_ssize_t.
    replace ((- 2 ^ 63 <=? n) && (n <? 2 ^ 63)) with true; [reflexivity |].
    symmetry; apply andb_true_iff; split; [apply Z.leb_le | apply Z.ltb_lt]; lia. }
  split.
  - intros other_defaults spec. unfold category_object.normalize_names.
    rewrite Hrange. cbn [rbind].
    assert (Hspec : names_of_spec n spec
                    = category_object.names_of_spec py_repr py_type py_display
                        other_defaults n spec).
    { unfold category_object.names_of_spec. rewrite Hneg. reflexivity. }
    rewrite Hspec. reflexivity.
  - intros s Hs.
    unfold category_object.normalize_names. rewrite Hrange. cbn [rbind].
    assert (Hspec : names_of_spec n (PStr s) = Ok (PList (PStr <$> [s]))).
    { cbn [category_object.names_of_spec py_str].
      rewrite (all_name_char_no_comma s (name_ok_all_name_char s Hs)).
      replace (n >? 1) with false by (symmetry; rewrite Z.gtb_ltb; apply Z.ltb_ge; lia).
      cbn [andb rbind]. rewrite Hneg. reflexivity. }
    rewrite Hspec. cbn [rbind category_object.certify_names py_iter].
    rewrite (certify_loop_accepts py_repr py_type ∅ [] [s] empty_seen)
      by (first [ constructor; [exact Hs | constructor]
                | apply NoDup_singleton
                | intros m _ Hm; inversion Hm ]).
    cbn [rbind]. replace (n >=? 0) with false; [reflexivity |].
    symmetry. rewrite Z.geb_leb. apply Z.leb_gt. lia.
Qed.

End MoreNames.

(** ** More about the class *)

Section MoreObject.

Context {Cat : Type} `{EqDecision Cat} {Val W : Type}.
Variable join : list Cat → Cat.
Variables py_repr py_type py_display : @pyval Cat → string.
Variable defaults_variable_names : Z → string → list string.
Variable getattr_from_other_class :
  @CategoryObject Cat Val → @lookup_class Cat → string → W → result Val * W.
Variables Objects Fields CommutativeRings Rings : Cat.
Variables CommutativeAlgebras Algebras : @pyval Cat → result Cat.
Variables is_field is_ring is_commutative : @CategoryObject Cat Val → result bool.
Variable _defining_names : @M Cat Val W (@pyval Cat).

Local Abbreviation normalize_names :=
  (normalize_names py_repr py_type py_display defaults_variable_names).
Local Abbreviation _assign_names :=
  (_assign_names py_repr py_type py_display defaults_variable_names).
Local Abbreviation guess_category :=
  (guess_category Fields CommutativeRings Rings CommutativeAlgebras Algebras
                  is_field is_ring is_commutative).
Local Abbreviation _init_category_ :=
  (_init_category_ join Fields CommutativeRings Rings CommutativeAlgebras Algebras
                   is_field is_ring is_commutative).
Local Abbreviation __init__ :=
  (__init__ join Fields CommutativeRings Rings CommutativeAlgebras Algebras
            is_field is_ring is_commutative).
Local Abbreviation _refine_category_ :=
  (_refine_category_ join Fields CommutativeRings Rings CommutativeAlgebras Algebras
                     is_field is_ring is_commutative).
Local Abbreviation refine_each :=
  (refine_each join Fields CommutativeRings Rings CommutativeAlgebras Algebras
               is_field is_ring is_commutative).
Local Abbreviation getattr_from_category := (getattr_from_category getattr_from_other_class).
Local Abbreviation __setstate__ := (__setstate__ join).
Local Abbreviation category := (category Objects).
Local Abbreviation check_default_category := (check_default_category join).
Local Abbreviation gens_dict := (gens_dict py_display _defining_names).

Implicit Types (o : @CategoryObject Cat Val) (w : W) (st : @state Cat Val W).

(** *** The hash *)

(** X6. The hash is computed from the representation once and then served
    from the cache: a second call returns the first value and changes
    nothing, whatever the representation hashes to by then. *)
Theorem hash_is_cached (hash1 hash2 : @CategoryObject Cat Val → Z) o w :
  _hash_value o = -1 → hash1 o ≠ -1 →
  __hash__ hash1 (mkState o w)
  = (Ok (hash1 o), mkState (set_hash_value (hash1 o) o) w)
  ∧ __hash__ hash2 (mkState (set_hash_value (hash1 o) o) w)
    = (Ok (hash1 o), mkState (set_hash_value (hash1 o) o) w).
Proof.
  intros Hunset Hhash. unfold __hash__, bind, get, modify, ret. cbn [self world].
  rewrite Hunset. cbn [Z.eqb Pos.eqb set_hash_value _hash_value self world].
  split; [reflexivity |].
  rewrite (proj2 (Z.eqb_neq _ _) Hhash). reflexivity.
Qed.

(** *** The category *)

(** X7. [category()] never returns [None]: an unset category is replaced by
    [Objects()] and stored; a set category is returned with the object
    untouched.  After the call the category is initialized, and a second
    call returns the same value and changes nothing. *)
Theorem category_is_total o w :
  ∃ c, fst (category (mkState o w)) = Ok c
       ∧ c ≠ PNone
       ∧ c = (if is_None (_category o) then PCat Objects else _category o)
       ∧ snd (category (mkState o w)) = mkState (set_category c o) w
       ∧ category (snd (category (mkState o w))) = (Ok c, snd (category (mkState o w)))
       ∧ fst (_is_category_initialized (snd (category (mkState o w)))) = Ok true.
Proof.
  exists (if is_None (_category o) then PCat Objects else _category o).
  unfold category_object.category, _is_category_initialized, bind, get, modify, ret.
  cbn [self world].
  destruct (_category o) eqn:Hcat; cbn [is_None self world fst snd set_category _category];
    rewrite ?Hcat; cbn [is_None negb];
    repeat split; try discriminate; rewrite <- ?Hcat, ?set_category_same; reflexivity.
Qed.

(** X8. The constructor on a freshly created object: without a category it
    only stores the base, and never probes the object to guess one; with a
    category it stores that category; with a list or tuple of categories it
    stores their join.  Names, attribute cache and hash stay as created. *)
Theorem init_stores_category_and_base id has_dict w (b : pyval) :
  let fresh := @__cinit__ Cat Val id has_dict in
  let based := if is_None b then fresh else set_base b fresh in
  __init__ PNone b (mkState fresh w) = (Ok tt, mkState based w)
  ∧ (∀ c : Cat,
      __init__ (PCat c) b (mkState fresh w) = (Ok tt, mkState (set_category (PCat c) based) w))
  ∧ (∀ cs : list Cat,
      __init__ (PTuple (PCat <$> cs)) b (mkState fresh w)
      = (Ok tt, mkState (set_category (PCat (join cs)) based) w)
      ∧ __init__ (PList (PCat <$> cs)) b (mkState fresh w)
        = (Ok tt, mkState (set_category (PCat (join cs)) based) w)).
Proof.
  assert (Hcats : ∀ cs : list Cat, as_categories (PCat <$> cs) = Some cs).
  { intros cs. unfold as_categories. induction cs as [| c cs IH]; [reflexivity |].
    cbn. cbn in IH. rewrite IH. reflexivity. }
  cbn zeta.
  unfold category_object.__init__, category_object._init_category_, bind, get, modify, ret,
    lift, Category_join.
  split; [| split].
  - destruct b, has_dict; reflexivity.
  - intros c. destruct b, has_dict; reflexivity.
  - intros cs. cbn [is_None negb]. rewrite Hcats. destruct b, has_dict; split; reflexivity.
Qed.

(** X9. [guess_category] answers [Fields()] as soon as [is_field()] says
    yes; it returns [None] or a category; the only exception it lets through
    is one raised by [is_field()] that is neither an [AttributeError] nor a
    [NotImplementedError]: whatever the ring probes raise is swallowed. *)
Theorem guess_category_outcome (obj : @CategoryObject Cat Val) :
  (is_field obj = Ok true → guess_category obj = Ok (PCat Fields))
  ∧ (∀ v, guess_category obj = Ok v → v = PNone ∨ ∃ c, v = PCat c)
  ∧ (∀ e, guess_category obj = Raise e →
       is_field obj = Raise e
       ∧ match e with AttributeError _ | NotImplementedError _ => False | _ => True end)
  ∧ (∀ e, is_field obj = Ok false → is_ring obj = Raise e → guess_category obj = Ok PNone)
  ∧ (∀ e, is_field obj = Ok false → is_ring obj = Ok true → is_commutative obj = Raise e →
       guess_category obj = Ok PNone).
Proof.
  unfold category_object.guess_category.
  split; [intros ->; reflexivity |]. split; [| split; [| split]].
  - intros v. unfold rbind. repeat case_match; intros; simplify_eq; eauto.
  - intros e. unfold rbind. repeat case_match; intros; simplify_eq; auto.
  - intros e -> ->. reflexivity.
  - intros e -> -> ->. reflexivity.
Qed.

(** X10. [check_default_category] returns the default when no category is
    given, and otherwise the join of the default with the category; with an
    associative and idempotent join that result is a sub-category of the
    default: joining it with the default again changes nothing. *)
Theorem check_default_category_is_subcategory (d c : Cat) :
  (∀ x y z, join [join [x; y]; z] = join [x; join [y; z]]) →
  (∀ x, join [x; x] = x) →
  check_default_category (PCat d) PNone = Ok (PCat d)
  ∧ check_default_category (PCat d) (PCat c) = Ok (PCat (join [d; c]))
  ∧ check_default_category (PCat d) (PCat (join [d; c])) = Ok (PCat (join [d; c])).
Proof.
  intros Hassoc Hidem. unfold category_object.check_default_category. cbn.
  rewrite <- Hassoc, Hidem. auto.
Qed.

(** *** Refinement by several categories *)

Lemma as_categories_fmap (cs : list Cat) : as_categories (@PCat Cat <$> cs) = Some cs.
Proof.
  unfold as_categories. induction cs as [| c cs IH]; [reflexivity |].
  cbn. cbn in IH. rewrite IH. reflexivity.
Qed.

Lemma _refine_category_list o w (c : Cat) (cs : list Cat) :
  _category o = PCat c →
  _refine_category_ (PList (PCat <$> cs)) (mkState o w)
  = (Ok tt, mkState (set_category (PCat (join (c :: cs))) o) w)
  ∧ _refine_category_ (PTuple (PCat <$> cs)) (mkState o w)
    = (Ok tt, mkState (set_category (PCat (join (c :: cs))) o) w).
Proof.
  intros Hcat.
  unfold category_object._refine_category_, bind, get, lift, modify. cbn [self world].
  rewrite Hcat. cbn [is_None call_join Category_join].
  replace ([PCat c] ++ (PCat <$> cs)) with (@PCat Cat <$> (c :: cs)) by reflexivity.
  unfold Category_join. rewrite as_categories_fmap. split; reflexivity.
Qed.

(** X11. On an initialized object, refining with a non-empty list (or
    tuple) of categories gives the join of the current category with all of
    them, and so does refining with them one call after the other, provided
    joining a join with further categories is joining everything at once. *)
Theorem refine_list_is_refine_each o w (c a : Cat) (cs : list Cat) :
  (∀ l1 l2, join (join l1 :: l2) = join (l1 ++ l2)) →
  _category o = PCat c →
  _refine_category_ (PList (PCat <$> a :: cs)) (mkState o w)
  = (Ok tt, mkState (set_category (PCat (join (c :: a :: cs))) o) w)
  ∧ _refine_category_ (PTuple (PCat <$> a :: cs)) (mkState o w)
    = (Ok tt, mkState (set_category (PCat (join (c :: a :: cs))) o) w)
  ∧ refine_each (PCat <$> a :: cs) (mkState o w)
    = (Ok tt, mkState (set_category (PCat (join (c :: a :: cs))) o) w).
Proof.
  intros Hflat Hcat.
  destruct (_refine_category_list o w c (a :: cs) Hcat) as [Hlist Htuple].
  split; [exact Hlist |]. split; [exact Htuple |]. clear Hlist Htuple.
  revert o c a Hcat. induction cs as [| a' cs IH]; intros o c a Hcat.
  - cbn [fmap list_fmap category_object.refine_each]. unfold bind.
    rewrite (_refine_category_join join Fields CommutativeRings Rings CommutativeAlgebras
               Algebras is_field is_ring is_commutative o w c a Hcat).
    reflexivity.
  - change (PCat <$> a :: a' :: cs) with (@PCat Cat a :: (PCat <$> a' :: cs)).
    cbn [category_object.refine_each]. unfold bind at 1.
    rewrite (_refine_category_join join Fields CommutativeRings Rings CommutativeAlgebras
               Algebras is_field is_ring is_commutative o w c a Hcat).
    rewrite (IH (set_category (PCat (join [c; a])) o) (join [c; a]) a' eq_refl).
    rewrite Hflat. reflexivity.
Qed.

(** X12. Refining twice with the same category is refining once, when join
    is associative and idempotent. *)
Theorem refine_same_twice o w (c a : Cat) :
  (∀ x y z, join [join [x; y]; z] = join [x; join [y; z]]) →
  (∀ x, join [x; x] = x) →
  _category o = PCat c →
  bind (_refine_category_ (PCat a)) (fun _ => _refine_category_ (PCat a)) (mkState o w)
  = _refine_category_ (PCat a) (mkState o w).
Proof.
  intros Hassoc Hidem Hcat. unfold bind at 1.
  rewrite (_refine_category_join join Fields CommutativeRings Rings CommutativeAlgebras
             Algebras is_field is_ring is_commutative o w c a Hcat).
  rewrite (_refine_category_join join Fields CommutativeRings Rings CommutativeAlgebras
             Algebras is_field is_ring is_commutative
             (set_category (PCat (join [c; a])) o) w (join [c; a]) a eq_refl).
  rewrite Hassoc, Hidem. reflexivity.
Qed.

(** *** Pickling: legacy and damaged records *)

Local Abbreviation with_dict d o o' :=
  (match __dict__ o with Some _ => set_dict (Some d) o' | None => o' end).

(** X13. A record without version tag is read as version 0, and a version-0
    record never raises and never touches the category: it restores base
    and names when both are present, only the base when the names are
    missing, and nothing at all when the base is missing (even if the names
    are there). *)
Theorem setstate_legacy (d : gmap string pyval) o w :
  d !! "_pickle_version" = None ∨ d !! "_pickle_version" = Some (PInt 0) →
  __setstate__ d (mkState o w)
  = (Ok tt,
     mkState (with_dict d o
                (match d !! "_base", d !! "_names" with
                 | Some b, Some n => set_names n (set_base b o)
                 | Some b, None => set_base b o
                 | None, _ => o
                 end)) w)
  ∧ _category (self (snd (__setstate__ d (mkState o w)))) = _category o.
Proof.
  intros Hversion.
  assert (Hrun : __setstate__ d (mkState o w)
    = (Ok tt,
       mkState (with_dict d o
                  (match d !! "_base", d !! "_names" with
                   | Some b, Some n => set_names n (set_base b o)
                   | Some b, None => set_base b o
                   | None, _ => o
                   end)) w)).
  { unfold category_object.__setstate__, getitem, bind, try_except, get, modify, ret, raise.
    destruct Hversion as [-> | ->]; cbn [pyval_eqb Z.eqb Pos.eqb self world];
      destruct (d !! "_base") as [b |]; cbn [self world catch_AttributeError_KeyError];
      destruct (d !! "_names") as [n |];
      cbn [self world catch_AttributeError_KeyError set_base set_names __dict__];
      destruct (__dict__ o); reflexivity. }
  split; [exact Hrun |]. rewrite Hrun. cbn [snd self].
  destruct (__dict__ o), (d !! "_base"), (d !! "_names"); reflexivity.
Qed.


(** X15. [__getstate__] leaves the object alone and returns the instance
    dictionary (empty when the class has none) with four entries written
    over it: the three slots and the version tag 1.  A same-named entry of
    the instance dictionary is thus overridden by the slot, and every other
    entry is carried along. *)
Theorem getstate_record o w :
  ∃ d, __getstate__ (mkState o w) = (Ok d, mkState o w)
       ∧ d !! "_pickle_version" = Some (PInt 1)
       ∧ d !! "_category" = Some (_category o)
       ∧ d !! "_base" = Some (_base o)
       ∧ d !! "_names" = Some (_names o)
       ∧ ∀ k, k ∉ ["_pickle_version"; "_category"; "_base"; "_names"] →
              d !! k = match __dict__ o with Some own => own !! k | None => None end.
Proof.
  exists (<["_pickle_version" := PInt 1]>
            (<["_names" := _names o]>
               (<["_base" := _base o]>
                  (<["_category" := _category o]>
                     (match __dict__ o with Some dict => dict | None => ∅ end))))).
  split; [reflexivity |].
  split; [simplify_map_eq; reflexivity |]. split; [simplify_map_eq; reflexivity |].
  split; [simplify_map_eq; reflexivity |]. split; [simplify_map_eq; reflexivity |].
  intros k Hk.
  rewrite !lookup_insert_ne by (intros <-; apply Hk; repeat constructor).
  destruct (__dict__ o); [reflexivity | apply lookup_empty].
Qed.

(** *** The attribute cache as a whole *)


(** *** Assigning and reading names *)

(** X17. On an object without names, assigning a specification that
    [normalize_names] accepts stores its normalized tuple, and
    [variable_names()] then returns exactly that tuple. *)
Theorem assign_then_variable_names o w (spec v : pyval) (ngens : option Z) :
  _names o = PNone → spec ≠ PNone →
  normalize_names (match ngens with None => -1 | Some n => n end) spec = Ok v →
  _assign_names spec true ngens (mkState o w) = (Ok tt, mkState (set_names v o) w)
  ∧ variable_names (mkState (set_names v o) w) = (Ok v, mkState (set_names v o) w).
Proof.
  intros Hunset Hspec%is_None_false Hnorm.
  pose proof Hnorm as (_ & ns & -> & _)%normalize_names_Ok_inv.
  split.
  - unfold category_object._assign_names, bind, lift, get, ret, modify.
    rewrite Hspec, Hnorm. cbn [self world]. rewrite Hunset. reflexivity.
  - rewrite variable_names_run. reflexivity.
Qed.

(** X18. With normalization switched off, the first assignment validates
    nothing: a string is stored as a one-element tuple, a list as the tuple
    of its elements, a tuple as it is, whatever they contain; any other
    value raises [TypeError] and leaves the names unset. *)
Theorem assign_names_unnormalized o w (ngens : option Z) :
  _names o = PNone →
  (∀ s, _assign_names (PStr s) false ngens (mkState o w)
        = (Ok tt, mkState (set_names (PTuple [PStr s]) o) w))
  ∧ (∀ l, _assign_names (PList l) false ngens (mkState o w)
          = (Ok tt, mkState (set_names (PTuple l) o) w))
  ∧ (∀ l, _assign_names (PTuple l) false ngens (mkState o w)
          = (Ok tt, mkState (set_names (PTuple l) o) w))
  ∧ (∀ v, match v with PInt _ | PCat _ | PObj _ => True | _ => False end →
          _assign_names v false ngens (mkState o w)
          = (Raise (TypeError "names must be a tuple of strings"), mkState o w)).
Proof.
  intros Hunset.
  assert (Hrun : ∀ v : pyval, v ≠ PNone →
    _assign_names v false ngens (mkState o w)
    = match v with
      | PStr _ => (Ok tt, mkState (set_names (PTuple [v]) o) w)
      | PList l => (Ok tt, mkState (set_names (PTuple l) o) w)
      | PTuple _ => (Ok tt, mkState (set_names v o) w)
      | _ => (Raise (TypeError "names must be a tuple of strings"), mkState o w)
      end).
  { intros v Hv%is_None_false.
    unfold category_object._assign_names, bind, lift, get, ret, modify, raise.
    rewrite Hv. cbn [self world]. rewrite Hunset. cbn [is_None negb andb].
    destruct v; reflexivity. }
  split; [intros s; apply (Hrun (PStr s)); discriminate |].
  split; [intros l; apply (Hrun (PList l)); discriminate |].
  split; [intros l; apply (Hrun (PTuple l)); discriminate |].
  intros v Hv. rewrite Hrun; destruct v; try contradiction; try reflexivity; discriminate.
Qed.

(** X19. [variable_name()] is the first of the names: it raises the
    [ValueError] of unset names, an [IndexError] when the names are the
    empty tuple, and returns the first name otherwise; the object is never
    changed. *)
Theorem variable_name_cases o w :
  (_names o = PNone →
   variable_name (mkState o w)
   = (Raise (ValueError
               "variable names have not yet been set using self._assign_names(...)"),
      mkState o w))
  ∧ (_names o = PTuple [] →
     variable_name (mkState o w)
     = (Raise (IndexError "tuple index out of range"), mkState o w))
  ∧ (∀ x t, _names o = PTuple (x :: t) →
     variable_name (mkState o w) = (Ok x, mkState o w)).
Proof.
  unfold variable_name, bind, lift. rewrite variable_names_run.
  split; [| split].
  - intros ->. reflexivity.
  - intros ->. reflexivity.
  - intros x t ->. reflexivity.
Qed.

(** *** The dictionary of generators *)

(** The loop [for x in l: v[str(x)] = x] started from the dictionary [v]. *)
Local Abbreviation bind_all v l :=
  (foldl (fun (acc : gmap string pyval) (g : pyval) => <[py_str py_display g := g]> acc) v l).

Lemma bind_all_other (v : gmap string pyval) (l : list pyval) (k : string) :
  (∀ y, y ∈ l → py_str py_display y ≠ k) → bind_all v l !! k = v !! k.
Proof.
  revert v. induction l as [| x l IH]; intros v Hl; [reflexivity |].
  cbn [foldl]. rewrite IH by (intros y Hy; apply Hl; right; exact Hy).
  apply lookup_insert_ne. apply Hl. left.
Qed.

Lemma bind_all_last (v : gmap string pyval) (l1 l2 : list pyval) (x : pyval) :
  (∀ y, y ∈ l2 → py_str py_display y ≠ py_str py_display x) →
  bind_all v (l1 ++ x :: l2) !! py_str py_display x = Some x.
Proof.
  intros Hl2. rewrite foldl_app. cbn [foldl].
  rewrite (bind_all_other _ l2 _ Hl2). apply lookup_insert_eq.
Qed.

Lemma bind_all_origin (v : gmap string pyval) (l : list pyval) (k : string) (x : pyval) :
  bind_all v l !! k = Some x → (x ∈ l ∧ py_str py_display x = k) ∨ v !! k = Some x.
Proof.
  revert v. induction l as [| y l IH]; intros v Hk; [right; exact Hk |].
  cbn [foldl] in Hk. destruct (IH _ Hk) as [[Hin Hstr] | Hv].
  - left. split; [right; exact Hin | exact Hstr].
  - destruct (decide (py_str py_display y = k)) as [<- | Hne].
    + rewrite lookup_insert_eq in Hv. injection Hv as <-. left. split; [left | reflexivity].
    + rewrite lookup_insert_ne in Hv by exact Hne. right. exact Hv.
Qed.

Lemma bind_all_size (l : list pyval) :
  NoDup (py_str py_display <$> l) → size (bind_all ∅ l) = length l.
Proof.
  induction l as [| x l IH] using rev_ind; intros Hnd; [reflexivity |].
  rewrite fmap_app in Hnd. apply NoDup_app in Hnd as (Hl & Hfresh & _).
  rewrite foldl_app, length_app. cbn [foldl length].
  rewrite map_size_insert_None, (IH Hl); [lia |].
  destruct (bind_all ∅ l !! py_str py_display x) as [y |] eqn:Hy; [| reflexivity].
  apply bind_all_origin in Hy as [[Hin Hstr] | Hempty]; [| rewrite lookup_empty in Hempty;
    discriminate].
  exfalso. apply (Hfresh (py_str py_display x)).
  - rewrite <- Hstr. apply list_elem_of_fmap_2. exact Hin.
  - left.
Qed.

Lemma bind_all_keeps (v : gmap string pyval) (l : list pyval) (k : string) :
  is_Some (v !! k) → is_Some (bind_all v l !! k).
Proof.
  revert v. induction l as [| y l IH]; intros v Hk; [exact Hk |].
  cbn [foldl]. apply IH.
  destruct (decide (py_str py_display y = k)) as [<- | Hne].
  - rewrite lookup_insert_eq. eauto.
  - rewrite lookup_insert_ne by exact Hne. exact Hk.
Qed.

Lemma bind_all_key (v : gmap string pyval) (l : list pyval) (x : pyval) :
  x ∈ l → is_Some (bind_all v l !! py_str py_display x).
Proof.
  intros (l1 & l2 & ->)%list_elem_of_split. rewrite foldl_app. cbn [foldl].
  apply bind_all_keeps. rewrite lookup_insert_eq. eauto.
Qed.

(** X20. [gens_dict()] maps the printed name of each defining generator to
    that generator and does nothing to the state beyond what the call of
    [_defining_names()] does: every entry comes from a generator; every
    generator's name is a key; when two generators print alike the later one
    is the one kept; and when all names differ the dictionary has one entry
    per generator, each name leading to its own generator. *)
Theorem gens_dict_entries st st' (names : pyval) (l : list pyval) :
  _defining_names st = (Ok names, st') → py_iter names = Ok l →
  ∃ d, gens_dict st = (Ok d, st')
       ∧ (∀ k x, d !! k = Some x → x ∈ l ∧ py_str py_display x = k)
       ∧ (∀ x, x ∈ l → is_Some (d !! py_str py_display x))
       ∧ (∀ l1 x l2, l = l1 ++ x :: l2 →
            (∀ y, y ∈ l2 → py_str py_display y ≠ py_str py_display x) →
            d !! py_str py_display x = Some x)
       ∧ (NoDup (py_str py_display <$> l) →
            size d = length l ∧ ∀ x, x ∈ l → d !! py_str py_display x = Some x).
Proof.
  intros Hnames Hiter. exists (bind_all ∅ l).
  assert (Hlast : ∀ l1 x l2, l = l1 ++ x :: l2 →
            (∀ y, y ∈ l2 → py_str py_display y ≠ py_str py_display x) →
            bind_all ∅ l !! py_str py_display x = Some x)
    by (intros l1 x l2 -> Hl2; apply bind_all_last, Hl2).
  split; [| split; [| split; [| split; [exact Hlast |]]]].
  - unfold category_object.gens_dict, bind, lift, ret.
    rewrite Hnames, Hiter. reflexivity.
  - intros k x Hk. apply bind_all_origin in Hk as [Hx | Hempty]; [exact Hx |].
    rewrite lookup_empty in Hempty. discriminate.
  - intros x Hx. apply bind_all_key, Hx.
  - intros Hnd. split; [apply bind_all_size, Hnd |].
    intros x (l1 & l2 & Hsplit)%list_elem_of_split.
    apply (Hlast l1 x l2 Hsplit).
    intros y Hy Heq. rewrite Hsplit, fmap_app, fmap_cons in Hnd.
    apply NoDup_app in Hnd as (_ & _ & Hnd). apply NoDup_cons in Hnd as [Hnotin _].
    apply Hnotin. rewrite <- Heq. apply list_elem_of_fmap_2. exact Hy.
Qed.

End MoreObject.

(** ** The further properties on the concrete instance *)

Lemma demo_join_flat (l1 l2 : list (gset string)) :
  Demo.join (Demo.join l1 :: l2) = Demo.join (l1 ++ l2).
Proof. unfold Demo.join. cbn. rewrite union_list_app_L. reflexivity. Qed.

Lemma certify_names_string_witness :
  certify_names Demo.repr Demo.type_name (@PStr (gset string) "abc") = Ok true.
Proof.
  apply (proj2 (@certify_names_string (gset string) Demo.repr Demo.type_name "abc")).
  split; [reflexivity |]. refine (bool_decide_unpack _ _). vm_compute. reflexivity.
Defined.

Lemma normalize_names_idempotent_witness :
  normalize_names Demo.repr Demo.type_name Demo.repr Demo.variable_names 2
    (PStr "a, b") = Ok (PTuple [PStr "a"; PStr "b"])
  ∧ normalize_names Demo.repr Demo.type_name Demo.repr Demo.variable_names 2
      (PTuple [PStr "a"; PStr "b"]) = Ok (PTuple [PStr "a"; PStr "b"]).
Proof.
  assert (Hfirst : normalize_names Demo.repr Demo.type_name Demo.repr Demo.variable_names 2
                     (PStr "a, b") = Ok (PTuple [@PStr (gset string) "a"; PStr "b"]))
    by (vm_compute; reflexivity).
  split; [exact Hfirst |].
  apply (normalize_names_idempotent Demo.repr Demo.type_name Demo.repr Demo.variable_names
           2 (PStr "a, b") _ Hfirst).
Defined.

Lemma normalize_names_comma_witness :
  PyStr.contains "," "x,y" = true
  ∧ normalize_names Demo.repr Demo.type_name Demo.repr Demo.variable_names 2 (PStr "x,y")
    = normalize_names Demo.repr Demo.type_name Demo.repr Demo.variable_names 2
        (PList [PStr "x"; PStr "y"]).
Proof.
  split; [reflexivity |].
  apply (@normalize_names_comma (gset string) Demo.repr Demo.type_name Demo.repr
           Demo.variable_names 2 "x,y").
  reflexivity.
Defined.

Lemma normalize_names_char_run_witness :
  1 < 3 < 2 ^ 63
  ∧ normalize_names Demo.repr Demo.type_name Demo.repr Demo.variable_names 3 (PStr "xyz")
    = Ok (PTuple [@PStr (gset string) "x"; PStr "y"; PStr "z"]).
Proof.
  split; [lia |].
  apply (@normalize_names_char_run (gset string) Demo.repr Demo.type_name Demo.repr
           Demo.variable_names 3 "xyz"); [lia | reflexivity | reflexivity |].
  refine (bool_decide_unpack _ _). vm_compute. reflexivity.
Defined.

Lemma normalize_names_unknown_count_witness :
  - 2 ^ 63 ≤ -1 < 0
  ∧ normalize_names Demo.repr Demo.type_name Demo.repr Demo.variable_names (-1) (PStr "a")
    = Ok (PTuple [@PStr (gset string) "a"]).
Proof.
  split; [lia |].
  apply (proj2 (@normalize_names_unknown_count (gset string) Demo.repr Demo.type_name
                  Demo.repr Demo.variable_names (-1) ltac:(lia))).
  exists "a"%char, "". repeat split.
Defined.

Lemma hash_is_cached_witness :
  _hash_value Demo.cold = -1
  ∧ @__hash__ (gset string) Demo.Val nat Demo.hash_of (mkState Demo.cold 0%nat)
    = (Ok 40, mkState (set_hash_value 40 Demo.cold) 0%nat)
  ∧ @__hash__ (gset string) Demo.Val nat (fun _ => 7)
      (mkState (set_hash_value 40 Demo.cold) 0%nat)
    = (Ok 40, mkState (set_hash_value 40 Demo.cold) 0%nat).
Proof.
  split; [reflexivity |].
  apply (@hash_is_cached (gset string) Demo.Val nat Demo.hash_of (fun _ => 7)
           Demo.cold 0%nat); [reflexivity | vm_compute; discriminate].
Defined.

Lemma guess_category_outcome_witness :
  guess_category ∅ ∅ ∅ Demo.no_algebras Demo.no_algebras
    (fun _ => Ok false) Demo.no_probe Demo.no_probe Demo.cold = Ok PNone.
Proof.
  destruct (@guess_category_outcome (gset string) Demo.Val ∅ ∅ ∅ Demo.no_algebras
              Demo.no_algebras (fun _ => Ok false) Demo.no_probe Demo.no_probe Demo.cold)
    as (_ & _ & _ & Hring & _).
  apply (Hring (AttributeError "no such method")); reflexivity.
Defined.

Lemma check_default_category_is_subcategory_witness :
  check_default_category Demo.join (PCat Demo.Sets) (PCat Demo.Magmas)
  = Ok (PCat (Demo.join [Demo.Sets; Demo.Magmas]))
  ∧ check_default_category Demo.join (PCat Demo.Sets)
      (PCat (Demo.join [Demo.Sets; Demo.Magmas]))
    = Ok (PCat (Demo.join [Demo.Sets; Demo.Magmas])).
Proof.
  apply (check_default_category_is_subcategory Demo.join Demo.Sets Demo.Magmas
           demo_join_assoc demo_join_idem).
Defined.

Lemma refine_list_is_refine_each_witness :
  _category Demo.warm = PCat Demo.Sets
  ∧ Demo.refine (PList [PCat Demo.Magmas; PCat Demo.Semigroups]) (mkState Demo.warm 0%nat)
    = (Ok tt,
       mkState (set_category (PCat (Demo.join [Demo.Sets; Demo.Magmas; Demo.Semigroups]))
                  Demo.warm) 0%nat)
  ∧ refine_each Demo.join ∅ ∅ ∅ Demo.no_algebras Demo.no_algebras
      Demo.no_probe Demo.no_probe Demo.no_probe
      [PCat Demo.Magmas; PCat Demo.Semigroups] (mkState Demo.warm 0%nat)
    = (Ok tt,
       mkState (set_category (PCat (Demo.join [Demo.Sets; Demo.Magmas; Demo.Semigroups]))
                  Demo.warm) 0%nat).
Proof.
  split; [reflexivity |].
  destruct (refine_list_is_refine_each Demo.join ∅ ∅ ∅ Demo.no_algebras Demo.no_algebras
              Demo.no_probe Demo.no_probe Demo.no_probe
              Demo.warm 0%nat Demo.Sets Demo.Magmas [Demo.Semigroups]
              demo_join_flat eq_refl) as (Hlist & _ & Heach).
  split; [exact Hlist | exact Heach].
Defined.

Lemma refine_same_twice_witness :
  _category Demo.warm = PCat Demo.Sets
  ∧ bind (Demo.refine (PCat Demo.Magmas)) (fun _ => Demo.refine (PCat Demo.Magmas))
         (mkState Demo.warm 0%nat)
    = Demo.refine (PCat Demo.Magmas) (mkState Demo.warm 0%nat).
Proof.
  split; [reflexivity |].
  apply (refine_same_twice Demo.join ∅ ∅ ∅ Demo.no_algebras Demo.no_algebras
           Demo.no_probe Demo.no_probe Demo.no_probe
           Demo.warm 0%nat Demo.Sets Demo.Magmas demo_join_assoc demo_join_idem eq_refl).
Defined.

Lemma setstate_legacy_witness :
  ({[ "_base" := PNone; "_names" := PTuple [PStr "t"] ]}
     : gmap string (@pyval (gset string))) !! "_pickle_version" = None
  ∧ Demo.restore {[ "_base" := PNone; "_names" := PTuple [PStr "t"] ]}
      (mkState Demo.warm 0%nat)
    = (Ok tt, mkState (set_names (PTuple [PStr "t"]) (set_base PNone Demo.warm)) 0%nat).
Proof.
  split; [vm_compute; reflexivity |].
  destruct (setstate_legacy Demo.join
              ({[ "_base" := PNone; "_names" := PTuple [PStr "t"] ]}
                 : gmap string (@pyval (gset string)))
              Demo.warm 0%nat) as [Hrun _]; [left; vm_compute; reflexivity |].
  unfold Demo.restore. rewrite Hrun. vm_compute. reflexivity.
Defined.



Lemma assign_then_variable_names_witness :
  _names Demo.cold = PNone
  ∧ Demo.assign (PStr "x, y") true None (mkState Demo.cold 0%nat)
    = (Ok tt, mkState (set_names (PTuple [PStr "x"; PStr "y"]) Demo.cold) 0%nat)
  ∧ variable_names (mkState (set_names (PTuple [PStr "x"; PStr "y"]) Demo.cold) 0%nat)
    = (Ok (PTuple [PStr "x"; PStr "y"]),
       mkState (set_names (PTuple [PStr "x"; PStr "y"]) Demo.cold) 0%nat).
Proof.
  split; [reflexivity |].
  apply (assign_then_variable_names Demo.repr Demo.type_name Demo.repr Demo.variable_names
           Demo.cold 0%nat (PStr "x, y") (PTuple [PStr "x"; PStr "y"]) None);
    [reflexivity | discriminate | vm_compute; reflexivity].
Defined.

Lemma assign_names_unnormalized_witness :
  _names Demo.cold = PNone
  ∧ Demo.assign (PList [PStr "1 x"; PStr "1 x"]) false None (mkState Demo.cold 0%nat)
    = (Ok tt, mkState (set_names (PTuple [PStr "1 x"; PStr "1 x"]) Demo.cold) 0%nat).
Proof.
  split; [reflexivity |].
  destruct (assign_names_unnormalized Demo.repr Demo.type_name Demo.repr
              Demo.variable_names Demo.cold 0%nat None eq_refl) as (_ & Hlist & _).
  apply Hlist.
Defined.

Lemma variable_name_cases_witness :
  _names Demo.warm = PTuple [PStr "x"; PStr "y"]
  ∧ variable_name (mkState Demo.warm 0%nat) = (Ok (PStr "x"), mkState Demo.warm 0%nat).
Proof.
  split; [reflexivity |].
  destruct (@variable_name_cases (gset string) Demo.Val nat Demo.warm 0%nat)
    as (_ & _ & Hfirst).
  apply (Hfirst (PStr "x") [PStr "y"]). reflexivity.
Defined.

Lemma gens_dict_entries_witness :
  Demo.defining_names (mkState Demo.warm 0%nat)
  = (Ok (PTuple [PStr "x"; PStr "y"]), mkState Demo.warm 0%nat)
  ∧ ∃ d, gens_dict Demo.repr Demo.defining_names (mkState Demo.warm 0%nat)
         = (Ok d, mkState Demo.warm 0%nat)
         ∧ size d = 2%nat
         ∧ d !! "y" = Some (PStr "y").
Proof.
  split; [reflexivity |].
  destruct (gens_dict_entries Demo.repr Demo.defining_names
              (mkState Demo.warm 0%nat) (mkState Demo.warm 0%nat)
              (PTuple [PStr "x"; PStr "y"]) [PStr "x"; PStr "y"] eq_refl eq_refl)
    as (d & Hrun & _ & _ & _ & Hdistinct).
  exists d. split; [exact Hrun |].
  destruct Hdistinct as [Hsize Hlookup].
  - refine (bool_decide_unpack _ _). vm_compute. reflexivity.
  - split; [exact Hsize |]. apply (Hlookup (PStr "y")). right. left.
Defined.

Lemma getstate_record_witness :
  ∃ d, Demo.capture
         (mkState (set_dict (Some {[ "color" := PStr "red"; "_base" := PInt 5 ]}) Demo.warm)
                  0%nat)
       = (Ok d,
          mkState (set_dict (Some {[ "color" := PStr "red"; "_base" := PInt 5 ]}) Demo.warm)
                  0%nat)
       ∧ d !! "_base" = Some (PObj 2%positive)
       ∧ d !! "color" = Some (PStr "red").
Proof.
  destruct (@getstate_record (gset string) Demo.Val nat
              (set_dict (Some {[ "color" := PStr "red"; "_base" := PInt 5 ]}) Demo.warm)
              0%nat)
    as (d & Hrun & _ & _ & Hbase & _ & Hother).
  exists d. split; [exact Hrun |]. split; [exact Hbase |].
  rewrite Hother.
  - vm_compute. reflexivity.
  - intros Hin. repeat (apply elem_of_cons in Hin as [Hin | Hin]; [discriminate |]).
    inversion Hin.
Defined.
